(** * NaverBlog: the place-page scraper and the field merger ([naver_map.py])

    A shallow embedding of [naver_map.py] and the properties of its
    URL resolver, section text extractor, crawl orchestrator and field
    merger.

    Python [str] values are sequences of Unicode code points; they are
    modelled as [list N].  Literals are written as UTF-8 byte strings and
    decoded by [u]. *)

From Stdlib Require Import NArith ZArith Ascii String List Bool Lia.
From stdpp Require Import base option list gmap.

Local Open Scope N_scope.

(** ** Strings as code-point lists *)

Abbreviation pystr := (list N).

(** UTF-8 decoding of a literal: [k] continuation bytes are still expected
    and [acc] holds the bits read so far. *)
Fixpoint utf8_go (s : string) (acc : N) (k : nat) : pystr :=
  match s with
  | EmptyString => []
  | String a s' =>
      let b := N_of_ascii a in
      match k with
      | O =>
          if b <? 128 then b :: utf8_go s' 0 0
          else if b <? 224 then utf8_go s' (b - 192) 1
          else if b <? 240 then utf8_go s' (b - 224) 2
          else utf8_go s' (b - 240) 3
      | S O => (acc * 64 + (b - 128)) :: utf8_go s' 0 0
      | S k' => utf8_go s' (acc * 64 + (b - 128)) k'
      end
  end.

Definition u (s : string) : pystr := utf8_go s 0 0.

Definition LF : N := 10.
Definition CR : N := 13.

(** [str.isspace] on one code point: the set [str.strip()] removes. *)
Definition is_space (c : N) : bool :=
  ((9 <=? c) && (c <=? 13)) || ((28 <=? c) && (c <=? 32))
  || (c =? 133) || (c =? 160) || (c =? 5760)
  || ((8192 <=? c) && (c <=? 8202))
  || (c =? 8232) || (c =? 8233) || (c =? 8239) || (c =? 8287) || (c =? 12288).

(** The line boundaries of [str.splitlines]. *)
Definition is_linebreak (c : N) : bool :=
  ((10 <=? c) && (c <=? 13)) || ((28 <=? c) && (c <=? 30))
  || (c =? 133) || (c =? 8232) || (c =? 8233).

(** Dropping the leading characters of a class. *)
Fixpoint lstrip_with (ws : N -> bool) (s : pystr) : pystr :=
  match s with
  | c :: s' => if ws c then lstrip_with ws s' else s
  | [] => []
  end.

Definition strip_with (ws : N -> bool) (s : pystr) : pystr :=
  rev (lstrip_with ws (rev (lstrip_with ws s))).

(** [s.strip()] *)
Definition strip (s : pystr) : pystr := strip_with is_space s.

(** [s.startswith(p)] *)
Fixpoint startswith (p s : pystr) : bool :=
  match p, s with
  | [], _ => true
  | a :: p', b :: s' => (a =? b) && startswith p' s'
  | _ :: _, [] => false
  end.

(** [needle in s] *)
Fixpoint contains (needle s : pystr) : bool :=
  startswith needle s
  || match s with
     | [] => false
     | _ :: s' => contains needle s'
     end.

(** Python truthiness of a string. *)
Definition truthy (s : pystr) : bool :=
  match s with [] => false | _ :: _ => true end.

(** [a == b] on strings. *)
Fixpoint str_eqb (a b : pystr) : bool :=
  match a, b with
  | [], [] => true
  | x :: a', y :: b' => (x =? y) && str_eqb a' b'
  | _, _ => false
  end.

(** [sep.join(parts)] *)
Fixpoint join (sep : pystr) (parts : list pystr) : pystr :=
  match parts with
  | [] => []
  | [p] => p
  | p :: rest => p ++ sep ++ join sep rest
  end.

(** [s.splitlines()]: [cur] is the current line in reverse; a CR LF pair is
    one boundary, and a final boundary opens no empty last line. *)
Fixpoint splitlines_go (s : pystr) (cur : pystr) : list pystr :=
  match s with
  | [] => match cur with [] => [] | _ => [rev cur] end
  | c :: s' =>
      if is_linebreak c then
        match s' with
        | d :: s'' =>
            if (c =? CR) && (d =? LF)
            then rev cur :: splitlines_go s'' []
            else rev cur :: splitlines_go s' []
        | [] => [rev cur]
        end
      else splitlines_go s' (c :: cur)
  end.

Definition splitlines (s : pystr) : list pystr := splitlines_go s [].

(** ** The patterns of the [re] module the source uses *)

(** [\d] on a [str] pattern is the Unicode decimal-digit class; outside
    ASCII it is fixed by the interpreter's Unicode database, which is a
    parameter ([uni_decimal] below). *)
Definition is_ascii_digit (c : N) : bool := (48 <=? c) && (c <=? 57).

Section Regex.
Variable uni_decimal : N -> bool.

Definition is_digit (c : N) : bool := is_ascii_digit c || uni_decimal c.

Fixpoint take_digits (s : pystr) : pystr :=
  match s with
  | c :: s' => if is_digit c then c :: take_digits s' else []
  | [] => []
  end.

Fixpoint drop_digits (s : pystr) : pystr :=
  match s with
  | c :: s' => if is_digit c then drop_digits s' else s
  | [] => []
  end.

Fixpoint strip_prefix (p s : pystr) : option pystr :=
  match p, s with
  | [], _ => Some s
  | a :: p', b :: s' => if a =? b then strip_prefix p' s' else None
  | _ :: _, [] => None
  end.

(** The match of [lit(\d+)] anchored at the start of [s]: group 1, the
    greedy digit run. *)
Definition match_lit_digits_here (lit s : pystr) : option pystr :=
  match strip_prefix lit s with
  | Some rest =>
      match take_digits rest with
      | [] => None
      | ds => Some ds
      end
  | None => None
  end.

(** [re.search(lit + r"(\d+)", s)]: the leftmost match; [m.group(1)]. *)
Fixpoint re_search_lit_digits (lit s : pystr) : option pystr :=
  match match_lit_digits_here lit s with
  | Some ds => Some ds
  | None =>
      match s with
      | [] => None
      | _ :: s' => re_search_lit_digits lit s'
      end
  end.

(** [re.sub(r"\d+$", "", s)]: [$] is the end of the string or the place
    before a final line feed; the leftmost match is the whole digit run
    that ends there. *)
Definition sub_trailing_digits (s : pystr) : pystr :=
  match rev s with
  | c :: r' =>
      if is_digit c then rev (drop_digits (c :: r'))
      else if c =? LF then rev (c :: drop_digits r')
      else s
  | [] => []
  end.
End Regex.

(** [re.sub(r"\n{3,}", "\n\n", s)]: [k] line feeds have just been read. *)
Definition emit_newlines (k : nat) : pystr :=
  if (3 <=? k)%nat then [LF; LF] else repeat LF k.

Fixpoint sub_newlines (s : pystr) (k : nat) : pystr :=
  match s with
  | [] => emit_newlines k
  | c :: s' =>
      if c =? LF then sub_newlines s' (S k)
      else emit_newlines k ++ c :: sub_newlines s' O
  end.

Definition _normalize_text (text : pystr) : pystr :=
  let text := map (fun c => if c =? CR then LF else c) text in
  let text := sub_newlines text O in
  strip text.

(** ** Exceptions and results *)

(** The exception classes the module raises or handles by name; any other
    class derived from [Exception] is [OtherError] with its name. *)
Inductive exn_class :=
  | ValueError
  | RuntimeError
  | NotImplementedError
  | OtherError (name : pystr).

Record exn := mk_exn { exn_cls : exn_class; exn_msg : pystr }.

Inductive result (A : Type) :=
  | Ok (a : A)
  | Raise (e : exn).
Arguments Ok {A} a.
Arguments Raise {A} e.

(** ** The page as the scripts see it *)

(** A frame handle with the URL it shows. *)
Record Frame := { frame_id : N; frame_url : pystr }.

(** The part of a document the evaluated scripts read.  Nodes are numbered;
    [innerText] is [None] where the property is undefined. *)
Record Document := {
  querySelectorAll : pystr -> list N;
  querySelector_in : N -> pystr -> option N;
  innerText : N -> option pystr;
  getAttribute : N -> pystr -> option pystr
}.

(** ** The environment: interpreter, network and browser *)

Record Env := {
  World : Type;
  (** the decimal digits outside ASCII ([\d]); no white-space character
      is one of them *)
  uni_decimal : N -> bool;
  uni_decimal_not_space : forall c, is_space c = true -> uni_decimal c = false;
  (** [str.lower] *)
  str_lower : pystr -> pystr;
  (** [urlparse(raw).netloc]; [urlparse] raises on some inputs *)
  urlparse_netloc : pystr -> result pystr;
  (** [urljoin(base, url)] *)
  urljoin : pystr -> pystr -> result pystr;
  (** [Request] and [urlopen(req, timeout=10)], then [resp.geturl()] *)
  urlopen_geturl : pystr -> World -> World * result pystr;
  (** [sync_playwright is not None] *)
  playwright_available : bool;
  (** [sys.platform] and the guarded choice of the event loop policy *)
  sys_platform : pystr;
  set_event_loop_policy : World -> World;
  (** entering [with sync_playwright() as p] *)
  playwright_enter : World -> World * result unit;
  (** [chromium.launch], [new_context], [new_page], [set_default_timeout] *)
  session_open : bool -> Z -> World -> World * result unit;
  (** [context.close()], [browser.close()] *)
  session_close : World -> World * result unit;
  (** leaving the [with] block *)
  playwright_exit : World -> World;
  page_goto : pystr -> World -> World * result unit;
  page_wait_for_timeout : Z -> World -> World * result unit;
  page_frames : World -> list Frame;
  page_main_frame : World -> Frame;
  (** [frame.evaluate(script)]: the call fails, or the script runs on the
      frame's document *)
  frame_document : Frame -> World -> World * result Document;
  (** the script that moves the scroll position and restores it *)
  frame_scroll_nudge : Frame -> World -> World * result unit;
  (** [target.click()] inside an evaluated script *)
  element_click : Frame -> N -> World -> World * result unit
}.

(** What the program does to the outside, in order. *)
Inductive event :=
  | EvUrlopen (url : pystr)
  | EvOpen (headless : bool) (timeout_ms : Z)
  | EvClose
  | EvGoto (url : pystr)
  | EvWait (ms : Z)
  | EvEvaluate (f : Frame)
  | EvClick (f : Frame) (node : N).

(** ** The state and error monad of the effectful functions *)

Record St (E : Env) := mk_St { world : World E; trace : list event }.
Arguments mk_St {E} world trace.
Arguments world {E} s.
Arguments trace {E} s.

Definition M (E : Env) (A : Type) : Type := St E -> St E * result A.

Definition ret {E A} (a : A) : M E A := fun s => (s, Ok a).

Definition raise {E A} (e : exn) : M E A := fun s => (s, Raise e).

Definition bind {E A B} (c : M E A) (k : A -> M E B) : M E B :=
  fun s =>
    match c s with
    | (s', Ok a) => k a s'
    | (s', Raise e) => (s', Raise e)
    end.

Notation "'let*' x ':=' c 'in' k" := (bind c (fun x => k))
  (at level 10, x name, c at level 100, k at level 200).
Notation "'run' c 'then' k" := (bind c (fun _ => k))
  (at level 10, c at level 100, k at level 200).

(** [try: c except Exception: h] *)
Definition try_except {E A} (c : M E A) (h : exn -> M E A) : M E A :=
  fun s =>
    match c s with
    | (s', Ok a) => (s', Ok a)
    | (s', Raise e) => h e s'
    end.

(** An operation of the environment, recorded in the trace. *)
Definition perform {E A} (ev : event)
    (op : World E -> World E * result A) : M E A :=
  fun s =>
    let '(w, r) := op (world s) in
    (mk_St w (trace s ++ [ev]), r).

Definition of_result {E A} (r : result A) : M E A :=
  fun s => (s, r).

Definition read {E A} (f : World E -> A) : M E A :=
  fun s => (s, Ok (f (world s))).

(** ** URL resolver *)

Definition USER_AGENT : pystr :=
  u "Mozilla/5.0 (Windows NT 10.0; Win64; x64) AppleWebKit/537.36 (KHTML, like Gecko) Chrome/125.0.0.0 Safari/537.36".

Definition patterns : list pystr :=
  [u "/entry/place/"; u "/place/"; u "placeId="].

Definition msg_url_empty : pystr := u "네이버 지도 URL이 비어 있습니다.".
Definition msg_id_not_found : pystr := u "URL에서 placeId를 찾지 못했습니다.".

Section Resolver.
Context (E : Env).

(** The loop over [patterns]: the first pattern that matches decides. *)
Fixpoint search_patterns (ps : list pystr) (raw : pystr) : option pystr :=
  match ps with
  | [] => None
  | p :: ps' =>
      match re_search_lit_digits (uni_decimal E) p raw with
      | Some ds => Some ds
      | None => search_patterns ps' raw
      end
  end.

Definition extract_place_id (url : pystr) : M E pystr :=
  if negb (truthy (strip url)) then
    raise (mk_exn ValueError msg_url_empty)
  else
    let raw := strip url in
    let* netloc := of_result (urlparse_netloc E raw) in
    let host := str_lower E netloc in
    let* raw := (if contains (u "naver.me") host
                 then perform (EvUrlopen raw) (urlopen_geturl E raw)
                 else ret raw) in
    match search_patterns patterns raw with
    | Some ds => ret ds
    | None => raise (mk_exn ValueError msg_id_not_found)
    end.
End Resolver.

(** ** Section text extractor: the part that runs in Python *)

(** One entry of the list the block script returns. *)
Record Block := { b_title : option pystr; b_text : option pystr }.

Definition action_tokens : list pystr :=
  [u "출발"; u "도착"; u "저장"; u "거리뷰"; u "공유"].

Definition action_hit_count (text : pystr) : nat :=
  length (filter (fun token => contains token text) action_tokens).

(** The tests after which the loop body says [continue], on the normalized
    text, in the order of the source. *)
Definition is_button_block (text : pystr) : bool :=
  (contains (u "알림받기") text && contains (u "출발") text
   && contains (u "도착") text)
  || (3 <=? action_hit_count text)%nat
  || contains (u "페이지 닫기") text.

Definition is_noise (text : pystr) : bool :=
  is_button_block text
  || contains (u "정보 수정 제안하기") text
  || startswith (u "메뉴판 이미지로 보기") text
  || (length text <? 10)%nat.

(** The entry appended to [cleaned] for a block that is kept. *)
Definition with_header (title text : pystr) : pystr :=
  if truthy title && negb (startswith title text)
  then title ++ [LF] ++ text
  else text.

Section Extractor.
Variable uni_decimal : N -> bool.

Definition clean_title (raw : option pystr) : pystr :=
  let raw_title := strip (default [] raw) in
  strip (sub_trailing_digits uni_decimal raw_title).

(** One turn of the loop: [None] is [continue]. *)
Definition clean_block (block : Block) : option pystr :=
  let title := clean_title (b_title block) in
  let text := _normalize_text (default [] (b_text block)) in
  if negb (truthy text) then None
  else if is_button_block text then None
  else if contains (u "정보 수정 제안하기") text then None
  else if startswith (u "메뉴판 이미지로 보기") text then None
  else if (length text <? 10)%nat then None
  else Some (with_header title text).

Definition cleaned_blocks (blocks : list Block) : list pystr :=
  omap clean_block blocks.

Definition sections_text (blocks : list Block) : pystr :=
  _normalize_text (join [LF; LF] (cleaned_blocks blocks)).
End Extractor.

(** ** The evaluated scripts *)

(** The white space and line terminators that [String.prototype.trim]
    removes. *)
Definition is_js_space (c : N) : bool :=
  ((9 <=? c) && (c <=? 13)) || (c =? 32) || (c =? 160) || (c =? 5760)
  || ((8192 <=? c) && (c <=? 8202))
  || (c =? 8232) || (c =? 8233) || (c =? 8239) || (c =? 8287) || (c =? 12288)
  || (c =? 65279).

Definition js_trim (s : pystr) : pystr := strip_with is_js_space s.

(** [s.length]: UTF-16 code units. *)
Definition js_length (s : pystr) : nat :=
  fold_right (fun c n => if c <? 65536 then S n else S (S n)) O s.

Definition DQ : N := 34.

Definition sel_tabs : pystr := u "a[role=" ++ [DQ] ++ u "tab" ++ [DQ] ++ u "]".

Definition sel_expand : pystr :=
  u "[aria-expanded=" ++ [DQ] ++ u "false" ++ [DQ] ++ u "], a, button, [role="
  ++ [DQ] ++ u "button" ++ [DQ] ++ u "]".

Definition sel_section : pystr := u ".place_section".

Definition sel_title : pystr :=
  u "h2, h3, .place_section_header, .place_section_title".

Definition panel_selectors : list pystr :=
  [u ".place_section"; u ".place_section_content"; u "#app-root";
   u "#_pcmap_list_scroll_container"; u ".place_section";
   u ".place_section_content"; u "body"].

(** [\w] of a JavaScript pattern without the unicode flag. *)
Definition is_js_word (c : N) : bool :=
  ((48 <=? c) && (c <=? 57)) || ((65 <=? c) && (c <=? 90))
  || ((97 <=? c) && (c <=? 122)) || (c =? 95).

Definition next_is_word (s : pystr) : bool :=
  match s with c :: _ => is_js_word c | [] => false end.

(** [:\d{2}\b] at the start of [s]. *)
Definition minutes_here (s : pystr) : bool :=
  match s with
  | c :: a :: b :: rest =>
      (c =? 58) && is_ascii_digit a && is_ascii_digit b
      && negb (next_is_word rest)
  | _ => false
  end.

(** [\b\d{1,2}:\d{2}\b] at the start of [s], after the character [prev]:
    two digits of hour are tried first, then one. *)
Definition time_here (prev : option N) (s : pystr) : bool :=
  negb (match prev with Some c => is_js_word c | None => false end)
  && match s with
     | d1 :: s1 =>
         is_ascii_digit d1
         && ((match s1 with
              | d2 :: s2 => is_ascii_digit d2 && minutes_here s2
              | [] => false
              end)
             || minutes_here s1)
     | [] => false
     end.

(** [/\b\d{1,2}:\d{2}\b/.test(t)] *)
Fixpoint time_search (prev : option N) (s : pystr) : bool :=
  time_here prev s
  || match s with
     | c :: s' => time_search (Some c) s'
     | [] => false
     end.

Definition hasExpandWord (t : pystr) : bool :=
  contains (u "펼쳐보기") t || contains (u "더보기") t.

Definition hasTimePattern (t : pystr) : bool :=
  time_search None t || contains (u "라스트오더") t.

(** The callback of [cands.find] in the expand script. *)
Definition is_expand_target (d : Document) (el : N) : bool :=
  let t := js_trim (default [] (innerText d el)) in
  if negb (truthy t) then false
  else hasExpandWord t && hasTimePattern t.

Definition find_expand_target (d : Document) : option N :=
  List.find (is_expand_target d) (querySelectorAll d sel_expand).

(** The script of [_extract_tab_links]: the own properties of the object
    it returns, as a map; a later anchor with the same label replaces an
    earlier one.  [out] is an object literal, so [out['__proto__'] = href]
    with a string [href] goes to the setter of [Object.prototype], which
    ignores it: no property is created for that label. *)
Definition tab_links_of (d : Document) : gmap pystr pystr :=
  fold_left
    (fun out a =>
       let text := js_trim (default [] (innerText d a)) in
       let href := default [] (getAttribute d a (u "href")) in
       if negb (truthy text) || negb (truthy href) then out
       else if str_eqb text (u "__proto__") then out
       else <[text := href]> out)
    (querySelectorAll d sel_tabs) ∅.

(** The script of [_extract_tab_sections_text]. *)
Definition section_blocks_of (d : Document) : list Block :=
  omap
    (fun section =>
       let title :=
         js_trim
           (match querySelector_in d section sel_title with
            | Some titleNode =>
                match innerText d titleNode with
                | Some t => t
                | None => []
                end
            | None => []
            end) in
       let text := js_trim (default [] (innerText d section)) in
       if negb (truthy text) then None
       else Some {| b_title := Some title; b_text := Some text |})
    (querySelectorAll d sel_section).

(** The script of [_extract_visible_panel_text]: the longest trimmed text
    over all nodes of all selectors; the first of equal length stays. *)
Definition visible_panel_of (d : Document) : pystr :=
  fold_left
    (fun best sel =>
       fold_left
         (fun best node =>
            let txt :=
              match innerText d node with
              | Some t => if truthy t then js_trim t else []
              | None => []
              end in
            if (js_length best <? js_length txt)%nat then txt else best)
         (querySelectorAll d sel) best)
    panel_selectors [].

(** ** The functions that drive the browser *)

Record CrawledPlaceData := {
  place_id : pystr;
  source_url : pystr;
  home_text : pystr;
  menu_text : pystr;
  info_text : pystr;
  news_text : pystr
}.

Definition msg_no_playwright : pystr :=
  u "playwright가 설치되어 있지 않습니다. `pip install playwright && playwright install chromium` 를 먼저 실행하세요.".
Definition msg_no_frame : pystr :=
  u "네이버 장소 패널 iframe을 찾지 못했습니다.".
Definition msg_launch_failed : pystr :=
  u "Playwright 브라우저 프로세스 실행에 실패했습니다. Windows 이벤트 루프 이슈일 수 있습니다. 터미널에서 `playwright install chromium` 실행 후 앱을 재시작해 주세요.".

Definition label_to_key : list (pystr * pystr) :=
  [(u "홈", u "home"); (u "메뉴", u "menu"); (u "정보", u "info");
   (u "소식", u "news")].

(** [d[k]] for a key the code has set before. *)
Definition getitem (d : gmap pystr pystr) (k : pystr) : pystr :=
  default [] (d !! k).

(** [home_url] of [crawl_place_tabs]. *)
Definition map_entry_home_of (place_id : pystr) : pystr :=
  u "https://map.naver.com/p/entry/place/" ++ place_id
  ++ u "?placePath=%2Fhome".

Section Crawler.
Context (E : Env).

Definition _extract_visible_panel_text (frame : Frame) : M E pystr :=
  let* d := perform (EvEvaluate frame) (frame_document E frame) in
  ret (_normalize_text (visible_panel_of d)).

Definition _get_place_frame : M E (option Frame) :=
  read (fun w =>
          List.find
            (fun frame => contains (u "pcmap.place.naver.com") (frame_url frame))
            (page_frames E w)).

Definition _extract_tab_links (frame : Frame) : M E (gmap pystr pystr) :=
  let* d := perform (EvEvaluate frame) (frame_document E frame) in
  ret (tab_links_of d).

(** The [try] block of [_expand_business_hours]. *)
Definition expand_attempt (frame : Frame) : M E bool :=
  run perform (EvEvaluate frame) (frame_scroll_nudge E frame) then
  let* d := perform (EvEvaluate frame) (frame_document E frame) in
  match find_expand_target d with
  | Some target =>
      run perform (EvClick frame target) (element_click E frame target) then
      ret true
  | None => ret false
  end.

Definition _expand_business_hours (frame : Frame) : M E bool :=
  try_except (expand_attempt frame) (fun _ => ret false).

Definition _extract_tab_sections_text (frame : Frame) : M E pystr :=
  let* d := perform (EvEvaluate frame) (frame_document E frame) in
  ret (sections_text (uni_decimal E) (section_blocks_of d)).

Definition wait (ms : Z) : M E unit :=
  perform (EvWait ms) (page_wait_for_timeout E ms).

Definition goto (url : pystr) : M E unit :=
  perform (EvGoto url) (page_goto E url).

(** [for _ in range(n)]: stop after the first attempt that succeeds. *)
Fixpoint expand_loop (n : nat) (frame : Frame) (pause : Z) : M E unit :=
  match n with
  | O => ret tt
  | S n' =>
      let* hit := _expand_business_hours frame in
      if hit then wait 700
      else run wait pause then expand_loop n' frame pause
  end.

(** [a(frame) or b(frame)] on the two extractors. *)
Definition extract_text (frame : Frame) : M E pystr :=
  let* t := _extract_tab_sections_text frame in
  if truthy t then ret t else _extract_visible_panel_text frame.

(** The statements of the loop body after [tab_url] is known, up to the
    text that is assigned to [result[key]]. *)
Definition visit_tab (key tab_url : pystr) : M E pystr :=
  run goto tab_url then
  run wait 2200 then
  let* found := _get_place_frame in
  let* tab_frame :=
    match found with
    | Some f => ret f
    | None => read (page_main_frame E)
    end in
  run (if str_eqb key (u "home") || str_eqb key (u "info")
       then expand_loop 3 tab_frame 400
       else ret tt) then
  extract_text tab_frame.

(** The body of the loop over [label_to_key.items()]. *)
Definition crawl_tab (tab_links : gmap pystr pystr)
    (item : pystr * pystr) (result : gmap pystr pystr)
    : M E (gmap pystr pystr) :=
  let '(label, key) := item in
  if str_eqb key (u "home") then ret result
  else
    match tab_links !! label with
    | Some ((_ :: _) as href) =>
        let* tab_url :=
          of_result (urljoin E (u "https://pcmap.place.naver.com") href) in
        let* t := visit_tab key tab_url in
        ret (<[key := t]> result)
    | _ => ret (<[key := []]> result)
    end.

Fixpoint for_each {A S : Type} (items : list A)
    (body : A -> S -> M E S) (s : S) : M E S :=
  match items with
  | [] => ret s
  | x :: rest => let* s' := body x s in for_each rest body s'
  end.

(** The block under [with sync_playwright() as p]. *)
Definition crawl_session (map_entry_home : pystr) (timeout_ms : Z)
    (headless : bool) (result : gmap pystr pystr)
    : M E (gmap pystr pystr) :=
  run perform (EvOpen headless timeout_ms)
        (session_open E headless timeout_ms) then
  run goto map_entry_home then
  run wait 3500 then
  let* found := _get_place_frame in
  match found with
  | None => raise (mk_exn RuntimeError msg_no_frame)
  | Some frame =>
      let* tab_links := _extract_tab_links frame in
      run expand_loop 4 frame 500 then
      let* t := extract_text frame in
      let result := <[u "home" := t]> result in
      let* result := for_each label_to_key (crawl_tab tab_links) result in
      run perform EvClose (session_close E) then
      ret result
  end.

(** [with sync_playwright() as p: body]: the exit runs on both ways out. *)
Definition with_playwright {A} (body : M E A) : M E A :=
  fun s =>
    match playwright_enter E (world s) with
    | (w, Raise e) => (mk_St w (trace s), Raise e)
    | (w, Ok _) =>
        let '(s', r) := body (mk_St w (trace s)) in
        (mk_St (playwright_exit E (world s')) (trace s'), r)
    end.

(** [except NotImplementedError as e: raise RuntimeError(...) from e] *)
Definition translate_not_implemented {A} (c : M E A) : M E A :=
  try_except c
    (fun e =>
       match exn_cls e with
       | NotImplementedError => raise (mk_exn RuntimeError msg_launch_failed)
       | _ => raise e
       end).

(** The guarded choice of the event loop policy on Windows; it never
    raises. *)
Definition prepare_event_loop : M E unit :=
  fun s =>
    if startswith (u "win") (sys_platform E)
    then (mk_St (set_event_loop_policy E (world s)) (trace s), Ok tt)
    else (s, Ok tt).

Definition crawl_place_tabs (map_url : pystr) (timeout_ms : Z)
    (headless : bool) : M E CrawledPlaceData :=
  if negb (playwright_available E) then
    raise (mk_exn RuntimeError msg_no_playwright)
  else
    run prepare_event_loop then
    let* place_id := extract_place_id E map_url in
    let map_entry_home := map_entry_home_of place_id in
    let result : gmap pystr pystr :=
      <[u "news" := []]> (<[u "info" := []]> (<[u "menu" := []]>
        (<[u "home" := []]> ∅))) in
    let* result :=
      translate_not_implemented
        (with_playwright
           (crawl_session map_entry_home timeout_ms headless result)) in
    ret {| place_id := place_id;
           source_url := map_entry_home;
           home_text := getitem result (u "home");
           menu_text := getitem result (u "menu");
           info_text := getitem result (u "info");
           news_text := getitem result (u "news") |}.
End Crawler.

(** ** Field merger *)

Definition boilerplate_line : pystr := u "네이버지도 검색".

Definition tab_words : list pystr :=
  [u "홈"; u "메뉴"; u "정보"; u "소식"; u "리뷰"; u "사진"].

Fixpoint _guess_place_name_lines (lines : list pystr) : pystr :=
  match lines with
  | [] => []
  | line :: rest =>
      let line := strip line in
      if negb (truthy line) then _guess_place_name_lines rest
      else if str_eqb line boilerplate_line then _guess_place_name_lines rest
      else if existsb (str_eqb line) tab_words then _guess_place_name_lines rest
      else line
  end.

Definition _guess_place_name (text : pystr) : pystr :=
  _guess_place_name_lines (splitlines text).

(** [[ln.strip() for ln in text.splitlines() if ln.strip()]] *)
Definition stripped_lines (text : pystr) : list pystr :=
  map strip (filter (fun ln => truthy (strip ln)) (splitlines text)).

Definition _guess_business_hours (text : pystr) : pystr :=
  let lines := stripped_lines text in
  let candidates :=
    filter (fun ln => contains (u "영업") ln || contains (u "라스트오더") ln)
      lines in
  strip (join (u " / ") (take 3 candidates)).

Definition is_tip_line (ln : pystr) : bool :=
  contains (u "주차") ln || contains (u "편의") ln
  || contains (u "무선 인터넷") ln || contains (u "포장") ln.

(** [not out.get(k)] *)
Definition is_blank (out : gmap pystr pystr) (k : pystr) : bool :=
  match out !! k with
  | Some v => negb (truthy v)
  | None => true
  end.

(** [if not out.get(k): out[k] = v] *)
Definition backfill (k v : pystr) (out : gmap pystr pystr)
    : gmap pystr pystr :=
  if is_blank out k then <[k := v]> out else out.

Definition link_line (crawled : CrawledPlaceData) : pystr :=
  u "지도 링크: " ++ source_url crawled.

(** The statements of [merge_blog_input_with_crawl], one function each,
    on the dictionary [out] they update. *)
Definition fill_place_name (crawled : CrawledPlaceData)
    (out : gmap pystr pystr) : gmap pystr pystr :=
  let place_name := _guess_place_name (home_text crawled) in
  if truthy place_name && is_blank out (u "place_name")
  then <[u "place_name" := place_name]> out
  else out.

Definition fill_business_hours (crawled : CrawledPlaceData)
    (out : gmap pystr pystr) : gmap pystr pystr :=
  let business_hours :=
    _guess_business_hours (home_text crawled ++ [LF] ++ info_text crawled) in
  if truthy business_hours && is_blank out (u "business_hours")
  then <[u "business_hours" := business_hours]> out
  else out.

Definition append_location (crawled : CrawledPlaceData)
    (out : gmap pystr pystr) : gmap pystr pystr :=
  let location_append := link_line crawled in
  if negb (is_blank out (u "location_info"))
  then <[u "location_info" :=
           strip (getitem out (u "location_info")) ++ [LF] ++ location_append]> out
  else <[u "location_info" := location_append]> out.

Definition parking_tips (crawled : CrawledPlaceData) : list pystr :=
  let info_lines := stripped_lines (info_text crawled) in
  filter is_tip_line info_lines.

Definition fill_parking (crawled : CrawledPlaceData)
    (out : gmap pystr pystr) : gmap pystr pystr :=
  if is_blank out (u "parking_or_tips") then
    match parking_tips crawled with
    | [] => out
    | tips => <[u "parking_or_tips" := join [LF] (take 6 tips)]> out
    end
  else out.

Definition fill_target_keyword (out : gmap pystr pystr) : gmap pystr pystr :=
  if is_blank out (u "target_keyword")
  then <[u "target_keyword" := getitem out (u "place_name")]> out
  else out.

Definition merge_blog_input_with_crawl (input_dict : gmap pystr pystr)
    (crawled : CrawledPlaceData) : gmap pystr pystr :=
  let out := input_dict in
  let out := fill_place_name crawled out in
  let out := fill_business_hours crawled out in
  let out := append_location crawled out in
  let out := backfill (u "home_tab_info") (home_text crawled) out in
  let out := backfill (u "menu_tab_info") (menu_text crawled) out in
  let out := backfill (u "info_tab_info") (info_text crawled) out in
  let out := backfill (u "news_tab_info") (news_text crawled) out in
  let out := fill_parking crawled out in
  let out := fill_target_keyword out in
  out.

(** The fields the merger only fills when they are blank, and all the
    fields it writes. *)
Definition backfill_fields : list pystr :=
  [u "place_name"; u "business_hours"; u "home_tab_info"; u "menu_tab_info";
   u "info_tab_info"; u "news_tab_info"; u "parking_or_tips";
   u "target_keyword"].

Definition recognized_fields : list pystr :=
  u "location_info" :: backfill_fields.

(** ** A small concrete environment

    One place page with a home and a menu tab, no info and no news tab;
    used to run the functions on concrete inputs. *)

Definition ascii_lower (s : pystr) : pystr :=
  map (fun c => if (65 <=? c) && (c <=? 90) then c + 32 else c) s.

(** The text between the first [//] and the next [/], [?] or [#]. *)
Fixpoint demo_until_path (s : pystr) : pystr :=
  match s with
  | c :: s' =>
      if (c =? 47) || (c =? 63) || (c =? 35) then [] else c :: demo_until_path s'
  | [] => []
  end.

Fixpoint demo_netloc (s : pystr) : pystr :=
  match s with
  | 47 :: ((47 :: rest) as s') => demo_until_path rest
  | _ :: s' => demo_netloc s'
  | [] => []
  end.

Definition demo_home : pystr :=
  u "https://map.naver.com/p/entry/place/1234567?placePath=%2Fhome".

Definition demo_hours : pystr :=
  u "영업시간" ++ [LF] ++ u "매일 11:00-21:00 라스트오더 20:30".

(** Nodes: 1 and 2 are the tab anchors (home, menu), 10 is a section with
    the title node 11, 12 is a section of buttons, 20 is the control that
    unfolds the business hours. *)
Definition demo_document : Document := {|
  querySelectorAll := fun sel =>
    if str_eqb sel sel_tabs then [1; 2]
    else if str_eqb sel sel_section then [10; 12]
    else if str_eqb sel sel_expand then [1; 2; 20]
    else [];
  querySelector_in := fun node sel =>
    if (node =? 10) && str_eqb sel sel_title then Some 11 else None;
  innerText := fun node =>
    if node =? 1 then Some (u "홈")
    else if node =? 2 then Some (u " 메뉴 ")
    else if node =? 10 then Some demo_hours
    else if node =? 11 then Some (u "영업시간3")
    else if node =? 12 then Some (u "출발 도착 저장 거리뷰 공유 알림받기")
    else if node =? 20 then Some (u "매일 11:00-21:00 펼쳐보기")
    else None;
  getAttribute := fun node name =>
    if str_eqb name (u "href") then
      if node =? 1 then Some (u "/restaurant/1234567/home")
      else if node =? 2 then Some (u "/restaurant/1234567/menu/list")
      else None
    else None
|}.

Lemma arabic_indic_not_space (c : N) :
  is_space c = true -> (1632 <=? c) && (c <=? 1641) = false.
Proof.
  intros Hs.
  destruct (N.leb_spec 1632 c) as [Hlo|Hlo]; [|reflexivity].
  destruct (N.leb_spec c 1641) as [Hhi|Hhi]; [|reflexivity].
  unfold is_space in Hs.
  rewrite !orb_true_iff, !andb_true_iff, !N.leb_le, !N.eqb_eq in Hs. lia.
Qed.

(** The world of the small environment is the URL the page shows. *)
Definition demo_env : Env := {|
  World := pystr;
  uni_decimal := fun c => (1632 <=? c) && (c <=? 1641);
  uni_decimal_not_space := arabic_indic_not_space;
  str_lower := ascii_lower;
  urlparse_netloc := fun raw => Ok (demo_netloc raw);
  urljoin := fun base url => Ok (base ++ url);
  urlopen_geturl := fun url w =>
    (w, Ok (u "https://map.naver.com/p/entry/place/1234567?c=15.00,0,0,0,dh"));
  playwright_available := true;
  sys_platform := u "linux";
  set_event_loop_policy := fun w => w;
  playwright_enter := fun w => (w, Ok tt);
  session_open := fun _ _ w => (w, Ok tt);
  session_close := fun w => (w, Ok tt);
  playwright_exit := fun w => w;
  page_goto := fun url _ => (url, Ok tt);
  page_wait_for_timeout := fun _ w => (w, Ok tt);
  page_frames := fun w =>
    [ {| frame_id := 0; frame_url := w |};
      {| frame_id := 1;
         frame_url := u "https://pcmap.place.naver.com/restaurant/1234567/home" |} ];
  page_main_frame := fun w => {| frame_id := 0; frame_url := w |};
  frame_document := fun _ w => (w, Ok demo_document);
  frame_scroll_nudge := fun _ w => (w, Ok tt);
  element_click := fun _ _ w => (w, Ok tt)
|}.

Definition demo_start : St demo_env := mk_St (u "about:blank" : World demo_env) [].

(** ** Definitions used to state the properties *)

(** [not d.get(k)] on the result of the lookup. *)
Definition blank_value (o : option pystr) : bool :=
  match o with
  | Some v => negb (truthy v)
  | None => true
  end.

(** The value a fill-if-blank statement leaves at its key. *)
Definition fill_value (cond : bool) (v : pystr) (o : option pystr)
    : option pystr :=
  if cond && blank_value o then Some v else o.

(** The value [append_location] leaves at [location_info]. *)
Definition appended_location (crawled : CrawledPlaceData)
    (o : option pystr) : pystr :=
  if negb (blank_value o)
  then strip (default [] o) ++ [LF] ++ link_line crawled
  else link_line crawled.

(** Sample inputs of the merger. *)
Definition demo_crawled : CrawledPlaceData := {|
  place_id := u "1234567";
  source_url := demo_home;
  home_text := u "네이버지도 검색" ++ [LF] ++ u "한강식당" ++ [LF] ++ demo_hours;
  menu_text := u "김치찌개 9,000원";
  info_text := u "주차 가능" ++ [LF] ++ u "포장, 무선 인터넷";
  news_text := []
|}.

Definition demo_input : gmap pystr pystr :=
  <[u "place_name" := u "우리식당"]>
    (<[u "tone" := u "정보형"]> (<[u "location_info" := u "Seoul"]> ∅)).

Definition xy_crawled : CrawledPlaceData := {|
  place_id := u "1";
  source_url := u "https://x/y";
  home_text := [];
  menu_text := [];
  info_text := [];
  news_text := []
|}.

Definition padded_input : gmap pystr pystr :=
  <[u "location_info" := u "Seoul "]> ∅.

Definition space_input : gmap pystr pystr :=
  <[u "location_info" := u " "]> ∅.

(** Sample blocks of the section text extractor. *)
Definition buttons_text : pystr := u "출발 도착 저장 거리뷰 공유 알림받기".
Definition short_text : pystr := u "짧다".
Definition menu_body : pystr :=
  u "메뉴" ++ [LF] ++ u "김치찌개 9,000원" ++ [LF] ++ u "된장찌개 8,000원".
Definition hours_body : pystr := u "매일 11:00-21:00 라스트오더 20:30".

(** [lit] followed by a digit stands in [s] at offset [i]: the places where
    [lit(\d+)] matches. *)
Definition occurs_at (ud : N -> bool) (lit s : pystr) (i : nat) : Prop :=
  exists pre d rest,
    s = pre ++ lit ++ d :: rest /\ is_digit ud d = true /\ length pre = i.

(** A place URL with white space around it and two identifier shapes. *)
Definition sample_url : pystr :=
  u "  https://map.naver.com/p/search/x/place/123?c=1&placeId=77 ".

(** The URLs of the navigations in a trace. *)
Definition goto_urls (t : list event) : list pystr :=
  omap (fun ev => match ev with EvGoto url => Some url | _ => None end) t.

(** The URL the loop navigates to for a tab label: none when the label has
    no link. *)
Definition tab_url (E : Env) (tab_links : gmap pystr pystr) (label : pystr)
    : option pystr :=
  match tab_links !! label with
  | Some ((_ :: _) as href) =>
      match urljoin E (u "https://pcmap.place.naver.com") href with
      | Ok url => Some url
      | Raise _ => None
      end
  | _ => None
  end.

Definition tab_urls (E : Env) (tab_links : gmap pystr pystr) : list pystr :=
  omap (tab_url E tab_links) [u "메뉴"; u "정보"; u "소식"].

(** A computation that navigates nowhere, however it ends. *)
Definition quiet {E A} (c : M E A) : Prop :=
  forall s s' r, c s = (s', r) -> goto_urls (trace s') = goto_urls (trace s).

Definition demo_frame : Frame :=
  {| frame_id := 1;
     frame_url := u "https://pcmap.place.naver.com/restaurant/1234567/home" |}.

(** [result] as [crawl_place_tabs] initialises it. *)
Definition empty_result : gmap pystr pystr :=
  <[u "news" := []]> (<[u "info" := []]> (<[u "menu" := []]>
    (<[u "home" := []]> ∅))).

Definition demo_menu_url : pystr :=
  u "https://pcmap.place.naver.com/restaurant/1234567/menu/list".

(** ** The character counter of [app.py] *)

(** [_count_chars]: [re.sub(r"\s+", "", text)] removes every white-space
    character ([\s] is the class of [str.isspace]). *)
Definition _count_chars (text : pystr) : nat * nat :=
  let total := length text in
  let non_space := length (List.filter (fun c => negb (is_space c)) text) in
  (total, non_space).

(** The dictionary [main] of [app.py] merges the crawl record into. *)
Definition example_base (map_url : pystr) : gmap pystr pystr :=
  <[u "target_keyword" := []]> (<[u "tone" := u "정보형"]>
  (<[u "signature_taste" := []]> (<[u "interior_and_menu" := []]>
  (<[u "parking_or_tips" := []]> (<[u "news_tab_info" := []]>
  (<[u "info_tab_info" := []]> (<[u "menu_tab_info" := []]>
  (<[u "home_tab_info" := []]> (<[u "location_info" := []]>
  (<[u "business_hours" := []]> (<[u "place_name" := []]>
  (<[u "map_url" := map_url]> ∅)))))))))))).

(** An environment that differs from [E] in the frames of the page only. *)
Definition env_with_frames (E : Env) (frames : World E -> list Frame) : Env := {|
  World := World E;
  uni_decimal := uni_decimal E;
  uni_decimal_not_space := uni_decimal_not_space E;
  str_lower := str_lower E;
  urlparse_netloc := urlparse_netloc E;
  urljoin := urljoin E;
  urlopen_geturl := urlopen_geturl E;
  playwright_available := playwright_available E;
  sys_platform := sys_platform E;
  set_event_loop_policy := set_event_loop_policy E;
  playwright_enter := playwright_enter E;
  session_open := session_open E;
  session_close := session_close E;
  playwright_exit := playwright_exit E;
  page_goto := page_goto E;
  page_wait_for_timeout := page_wait_for_timeout E;
  page_frames := frames;
  page_main_frame := page_main_frame E;
  frame_document := frame_document E;
  frame_scroll_nudge := frame_scroll_nudge E;
  element_click := element_click E
|}.

(** The small environment with a page that never shows a place frame. *)
Definition noframe_env : Env :=
  env_with_frames demo_env (fun w => [ {| frame_id := 0; frame_url := w |} ]).

Definition noframe_start : St noframe_env :=
  mk_St (u "about:blank" : World noframe_env) [].

(** The clicks in a trace. *)
Definition click_count (t : list event) : nat :=
  length (List.filter (fun ev => match ev with EvClick _ _ => true | _ => false end) t).

(** ** Definitions used to state the further properties *)

Definition no_triple (s : pystr) : Prop := contains [LF; LF; LF] s = false.

(** What the tab script reads of one anchor. *)
Definition anchor_label (d : Document) (a : N) : pystr :=
  js_trim (default [] (innerText d a)).
Definition anchor_href (d : Document) (a : N) : pystr :=
  default [] (getAttribute d a (u "href")).

(** One turn of the loop of the tab script. *)
Definition add_tab_link (d : Document) (out : gmap pystr pystr) (a : N)
    : gmap pystr pystr :=
  if negb (truthy (anchor_label d a)) || negb (truthy (anchor_href d a))
  then out
  else if str_eqb (anchor_label d a) (u "__proto__") then out
  else <[anchor_label d a := anchor_href d a]> out.

(** The text of a node as the panel script takes it. *)
Definition panel_candidate (d : Document) (node : N) : pystr :=
  match innerText d node with
  | Some t => if truthy t then js_trim t else []
  | None => []
  end.

Definition keep_longer (d : Document) (best : pystr) (node : N) : pystr :=
  if (js_length best <? js_length (panel_candidate d node))%nat
  then panel_candidate d node else best.

(** The lines [_guess_place_name] passes over. *)
Definition skipped_line (line : pystr) : bool :=
  negb (truthy (strip line))
  || str_eqb (strip line) boilerplate_line
  || existsb (str_eqb (strip line)) tab_words.

(** A string that is not empty and has no white space at its ends. *)
Definition trimmed (e : pystr) : Prop :=
  e <> []
  /\ (forall c r, e = c :: r -> is_space c = false)
  /\ (forall c, last e = Some c -> is_space c = false).

(** The lines [_guess_business_hours] joins. *)
Definition hours_candidates (text : pystr) : list pystr :=
  filter (fun ln => contains (u "영업") ln || contains (u "라스트오더") ln)
    (stripped_lines text).

(** * Properties *)

(** ** Field merger: what each statement does to each key *)

Lemma fill_value_filled cond v o x :
  o = Some x -> truthy x = true -> fill_value cond v o = Some x.
Proof.
  intros -> Hx. unfold fill_value; simpl. rewrite Hx; simpl.
  now rewrite andb_false_r.
Qed.

Lemma fill_value_idem cond v o :
  fill_value cond v (fill_value cond v o) = fill_value cond v o.
Proof.
  unfold fill_value.
  destruct cond; simpl; [|reflexivity].
  destruct (blank_value o) eqn:Hb; simpl.
  - now destruct (negb (truthy v)).
  - now rewrite Hb.
Qed.

Ltac key_ne :=
  first [ assumption
        | let H := fresh in intros H; vm_compute in H; discriminate H ].

Section MergerSteps.
Variable crawled : CrawledPlaceData.
Variable out : gmap pystr pystr.

Lemma is_blank_lookup k : is_blank out k = blank_value (out !! k).
Proof. reflexivity. Qed.

Lemma fill_place_name_ne k :
  k ≠ u "place_name" -> fill_place_name crawled out !! k = out !! k.
Proof.
  intros Hk. unfold fill_place_name.
  destruct (_ && _); [|reflexivity]. now rewrite lookup_insert_ne.
Qed.

Lemma fill_place_name_eq :
  fill_place_name crawled out !! u "place_name"
  = fill_value (truthy (_guess_place_name (home_text crawled)))
      (_guess_place_name (home_text crawled)) (out !! u "place_name").
Proof.
  unfold fill_place_name, fill_value. rewrite is_blank_lookup.
  destruct (_ && _); [|reflexivity]. now rewrite lookup_insert_eq.
Qed.

Lemma fill_business_hours_ne k :
  k ≠ u "business_hours" -> fill_business_hours crawled out !! k = out !! k.
Proof.
  intros Hk. unfold fill_business_hours.
  destruct (_ && _); [|reflexivity]. now rewrite lookup_insert_ne.
Qed.

Lemma fill_business_hours_eq :
  fill_business_hours crawled out !! u "business_hours"
  = fill_value
      (truthy (_guess_business_hours
                 (home_text crawled ++ [LF] ++ info_text crawled)))
      (_guess_business_hours (home_text crawled ++ [LF] ++ info_text crawled))
      (out !! u "business_hours").
Proof.
  unfold fill_business_hours, fill_value. rewrite is_blank_lookup.
  destruct (_ && _); [|reflexivity]. now rewrite lookup_insert_eq.
Qed.

Lemma append_location_ne k :
  k ≠ u "location_info" -> append_location crawled out !! k = out !! k.
Proof.
  intros Hk. unfold append_location.
  destruct (negb _); now rewrite lookup_insert_ne.
Qed.

Lemma append_location_eq :
  append_location crawled out !! u "location_info"
  = Some (appended_location crawled (out !! u "location_info")).
Proof.
  unfold append_location, appended_location, getitem.
  rewrite is_blank_lookup.
  destruct (negb _); now rewrite lookup_insert_eq.
Qed.

Lemma backfill_ne key v k :
  k ≠ key -> backfill key v out !! k = out !! k.
Proof.
  intros Hk. unfold backfill.
  destruct (is_blank _ _); [|reflexivity]. now rewrite lookup_insert_ne.
Qed.

Lemma backfill_eq key v :
  backfill key v out !! key = fill_value true v (out !! key).
Proof.
  unfold backfill, fill_value. rewrite is_blank_lookup; simpl.
  destruct (blank_value _); [|reflexivity]. now rewrite lookup_insert_eq.
Qed.

Lemma fill_parking_ne k :
  k ≠ u "parking_or_tips" -> fill_parking crawled out !! k = out !! k.
Proof.
  intros Hk. unfold fill_parking.
  destruct (is_blank _ _); [|reflexivity].
  destruct (parking_tips crawled); [reflexivity|].
  now rewrite lookup_insert_ne.
Qed.

Lemma fill_parking_eq :
  fill_parking crawled out !! u "parking_or_tips"
  = fill_value (negb (bool_decide (parking_tips crawled = [])))
      (join [LF] (take 6 (parking_tips crawled)))
      (out !! u "parking_or_tips").
Proof.
  unfold fill_parking, fill_value. rewrite is_blank_lookup.
  destruct (blank_value _); [|now rewrite andb_false_r].
  destruct (parking_tips crawled); [reflexivity|].
  simpl. now rewrite lookup_insert_eq.
Qed.

Lemma fill_target_keyword_ne k :
  k ≠ u "target_keyword" -> fill_target_keyword out !! k = out !! k.
Proof.
  intros Hk. unfold fill_target_keyword.
  destruct (is_blank _ _); [|reflexivity]. now rewrite lookup_insert_ne.
Qed.

Lemma fill_target_keyword_eq :
  fill_target_keyword out !! u "target_keyword"
  = fill_value true (default [] (out !! u "place_name"))
      (out !! u "target_keyword").
Proof.
  unfold fill_target_keyword, fill_value, getitem.
  rewrite is_blank_lookup; simpl.
  destruct (blank_value _); [|reflexivity]. now rewrite lookup_insert_eq.
Qed.
End MergerSteps.

(** Rewriting a lookup through the statements that write another key. *)
Ltac skip_steps :=
  repeat first
    [ rewrite fill_target_keyword_ne by key_ne
    | rewrite fill_parking_ne by key_ne
    | rewrite backfill_ne by key_ne
    | rewrite append_location_ne by key_ne
    | rewrite fill_business_hours_ne by key_ne
    | rewrite fill_place_name_ne by key_ne ].

Section MergerLookups.
Variable d : gmap pystr pystr.
Variable c : CrawledPlaceData.

Lemma merge_place_name :
  merge_blog_input_with_crawl d c !! u "place_name"
  = fill_value (truthy (_guess_place_name (home_text c)))
      (_guess_place_name (home_text c)) (d !! u "place_name").
Proof.
  unfold merge_blog_input_with_crawl. skip_steps.
  apply fill_place_name_eq.
Qed.

Lemma merge_business_hours :
  merge_blog_input_with_crawl d c !! u "business_hours"
  = fill_value
      (truthy (_guess_business_hours (home_text c ++ [LF] ++ info_text c)))
      (_guess_business_hours (home_text c ++ [LF] ++ info_text c))
      (d !! u "business_hours").
Proof.
  unfold merge_blog_input_with_crawl. skip_steps.
  rewrite fill_business_hours_eq. now skip_steps.
Qed.

Lemma merge_location_info :
  merge_blog_input_with_crawl d c !! u "location_info"
  = Some (appended_location c (d !! u "location_info")).
Proof.
  unfold merge_blog_input_with_crawl. skip_steps.
  rewrite append_location_eq. now skip_steps.
Qed.

Lemma merge_home_tab_info :
  merge_blog_input_with_crawl d c !! u "home_tab_info"
  = fill_value true (home_text c) (d !! u "home_tab_info").
Proof.
  unfold merge_blog_input_with_crawl. skip_steps.
  rewrite backfill_eq. now skip_steps.
Qed.

Lemma merge_menu_tab_info :
  merge_blog_input_with_crawl d c !! u "menu_tab_info"
  = fill_value true (menu_text c) (d !! u "menu_tab_info").
Proof.
  unfold merge_blog_input_with_crawl. skip_steps.
  rewrite backfill_eq. now skip_steps.
Qed.

Lemma merge_info_tab_info :
  merge_blog_input_with_crawl d c !! u "info_tab_info"
  = fill_value true (info_text c) (d !! u "info_tab_info").
Proof.
  unfold merge_blog_input_with_crawl. skip_steps.
  rewrite backfill_eq. now skip_steps.
Qed.

Lemma merge_news_tab_info :
  merge_blog_input_with_crawl d c !! u "news_tab_info"
  = fill_value true (news_text c) (d !! u "news_tab_info").
Proof.
  unfold merge_blog_input_with_crawl. skip_steps.
  rewrite backfill_eq. now skip_steps.
Qed.

Lemma merge_parking_or_tips :
  merge_blog_input_with_crawl d c !! u "parking_or_tips"
  = fill_value (negb (bool_decide (parking_tips c = [])))
      (join [LF] (take 6 (parking_tips c))) (d !! u "parking_or_tips").
Proof.
  unfold merge_blog_input_with_crawl. skip_steps.
  rewrite fill_parking_eq. now skip_steps.
Qed.

Lemma merge_target_keyword :
  merge_blog_input_with_crawl d c !! u "target_keyword"
  = fill_value true
      (default [] (merge_blog_input_with_crawl d c !! u "place_name"))
      (d !! u "target_keyword").
Proof.
  rewrite merge_place_name.
  unfold merge_blog_input_with_crawl.
  rewrite fill_target_keyword_eq. skip_steps.
  rewrite (fill_place_name_ne c d (u "target_keyword")) by key_ne.
  now rewrite fill_place_name_eq.
Qed.

Lemma merge_other k :
  ~ In k recognized_fields ->
  merge_blog_input_with_crawl d c !! k = d !! k.
Proof.
  intros Hk.
  assert (Hne : forall f, In f recognized_fields -> k ≠ f)
    by (intros f Hf ->; contradiction).
  unfold recognized_fields, backfill_fields in Hne.
  pose proof (Hne _ (or_introl eq_refl)) as H0.
  pose proof (Hne _ (or_intror (or_introl eq_refl))) as H1.
  pose proof (Hne _ (or_intror (or_intror (or_introl eq_refl)))) as H2.
  pose proof (Hne _ (or_intror (or_intror (or_intror (or_introl eq_refl))))) as H3.
  pose proof (Hne _ (or_intror (or_intror (or_intror (or_intror (or_introl eq_refl)))))) as H4.
  pose proof (Hne _ (or_intror (or_intror (or_intror (or_intror (or_intror (or_introl eq_refl))))))) as H5.
  pose proof (Hne _ (or_intror (or_intror (or_intror (or_intror (or_intror (or_intror (or_introl eq_refl)))))))) as H6.
  pose proof (Hne _ (or_intror (or_intror (or_intror (or_intror (or_intror (or_intror (or_intror (or_introl eq_refl))))))))) as H7.
  pose proof (Hne _ (or_intror (or_intror (or_intror (or_intror (or_intror (or_intror (or_intror (or_intror (or_introl eq_refl)))))))))) as H8.
  unfold merge_blog_input_with_crawl. now skip_steps.
Qed.
End MergerLookups.

(** ** Field merger: the claims *)

(** C1. Backfill only: for every input map and crawl record, a recognized
    backfill field whose input value is non-empty has exactly that value in
    the merged result, and every key the merger does not write has the
    value (or the absence) it had in the input. *)
Theorem merge_keeps_filled_fields
    (d : gmap pystr pystr) (c : CrawledPlaceData) :
  (forall f v, In f backfill_fields -> d !! f = Some v -> truthy v = true ->
     merge_blog_input_with_crawl d c !! f = Some v)
  /\ (forall k, ~ In k recognized_fields ->
        merge_blog_input_with_crawl d c !! k = d !! k).
Proof.
  split; [|apply merge_other].
  intros f v Hf Hd Hv. unfold backfill_fields in Hf. cbn [In] in Hf.
  destruct Hf as [<-|[<-|[<-|[<-|[<-|[<-|[<-|[<-|[]]]]]]]]].
  - rewrite merge_place_name. now apply fill_value_filled.
  - rewrite merge_business_hours. now apply fill_value_filled.
  - rewrite merge_home_tab_info. now apply fill_value_filled.
  - rewrite merge_menu_tab_info. now apply fill_value_filled.
  - rewrite merge_info_tab_info. now apply fill_value_filled.
  - rewrite merge_news_tab_info. now apply fill_value_filled.
  - rewrite merge_parking_or_tips. now apply fill_value_filled.
  - rewrite merge_target_keyword. now apply fill_value_filled.
Qed.

Lemma merge_keeps_filled_fields_witness :
  merge_blog_input_with_crawl demo_input demo_crawled !! u "place_name"
  = Some (u "우리식당")
  /\ merge_blog_input_with_crawl demo_input demo_crawled !! u "tone"
     = demo_input !! u "tone".
Proof.
  split.
  - apply (proj1 (merge_keeps_filled_fields demo_input demo_crawled)).
    + vm_compute. tauto.
    + vm_compute. reflexivity.
    + reflexivity.
  - apply (proj2 (merge_keeps_filled_fields demo_input demo_crawled)).
    vm_compute. intuition discriminate.
Defined.

(** C5, as stated, fails: an existing value with white space at its end is
    not followed by the link line as it is; the merger strips it first. *)
Lemma merge_location_strips_existing :
  merge_blog_input_with_crawl padded_input xy_crawled !! u "location_info"
  = Some (u "Seoul" ++ [LF] ++ u "지도 링크: https://x/y")
  /\ merge_blog_input_with_crawl padded_input xy_crawled !! u "location_info"
     <> Some (u "Seoul " ++ [LF] ++ u "지도 링크: https://x/y").
Proof.
  split.
  - vm_compute. reflexivity.
  - vm_compute. discriminate.
Qed.

(** C5, amended. The merger always writes [location_info]: a non-empty
    existing value is stripped of leading and trailing white space and
    followed by a line feed and the line "지도 링크: <source_url>"; an empty
    or absent value is replaced by that line alone.  Existing "Seoul" and
    source URL "https://x/y" give "Seoul\n지도 링크: https://x/y". *)
Theorem merge_location_info_appends
    (d : gmap pystr pystr) (c : CrawledPlaceData) :
  (forall v, d !! u "location_info" = Some v -> truthy v = true ->
     merge_blog_input_with_crawl d c !! u "location_info"
     = Some (strip v ++ [LF] ++ u "지도 링크: " ++ source_url c))
  /\ (blank_value (d !! u "location_info") = true ->
      merge_blog_input_with_crawl d c !! u "location_info"
      = Some (u "지도 링크: " ++ source_url c))
  /\ (d !! u "location_info" = Some (u "Seoul") ->
      source_url c = u "https://x/y" ->
      merge_blog_input_with_crawl d c !! u "location_info"
      = Some (u "Seoul" ++ [LF] ++ u "지도 링크: https://x/y")).
Proof.
  rewrite merge_location_info. unfold appended_location, link_line.
  split; [|split].
  - intros v -> Hv. simpl. now rewrite Hv.
  - now intros ->.
  - intros -> ->. vm_compute. reflexivity.
Qed.

Lemma merge_location_info_appends_witness :
  merge_blog_input_with_crawl demo_input demo_crawled !! u "location_info"
  = Some (strip (u "Seoul") ++ [LF] ++ u "지도 링크: " ++ source_url demo_crawled)
  /\ merge_blog_input_with_crawl ∅ xy_crawled !! u "location_info"
     = Some (u "지도 링크: " ++ source_url xy_crawled)
  /\ merge_blog_input_with_crawl (<[u "location_info" := u "Seoul"]> ∅)
       xy_crawled !! u "location_info"
     = Some (u "Seoul" ++ [LF] ++ u "지도 링크: https://x/y").
Proof.
  pose proof (merge_location_info_appends demo_input demo_crawled) as [H1 _].
  pose proof (merge_location_info_appends ∅ xy_crawled) as [_ [H2 _]].
  pose proof (merge_location_info_appends
                (<[u "location_info" := u "Seoul"]> ∅) xy_crawled)
    as [_ [_ H3]].
  split; [|split].
  - refine (H1 (u "Seoul") _ _); [vm_compute; reflexivity | reflexivity].
  - refine (H2 _). reflexivity.
  - refine (H3 _ _); [vm_compute; reflexivity | reflexivity].
Defined.

Lemma link_line_truthy c o : blank_value (Some (appended_location c o)) = false.
Proof.
  unfold appended_location, link_line. simpl.
  destruct (negb (blank_value o)).
  - now destruct (strip (default [] o)).
  - reflexivity.
Qed.

(** C6, as stated, fails: the second merge does not append the link line
    to the value of [m] as it is.  With an input [location_info] of one
    space, [m] holds a line feed and the link line; the second merge
    strips that line feed before it appends. *)
Lemma merge_twice_strips_merged_value :
  merge_blog_input_with_crawl space_input xy_crawled !! u "location_info"
  = Some ([LF] ++ u "지도 링크: https://x/y")
  /\ merge_blog_input_with_crawl
       (merge_blog_input_with_crawl space_input xy_crawled) xy_crawled
       !! u "location_info"
     = Some (u "지도 링크: https://x/y" ++ [LF] ++ u "지도 링크: https://x/y")
  /\ merge_blog_input_with_crawl
       (merge_blog_input_with_crawl space_input xy_crawled) xy_crawled
       !! u "location_info"
     <> Some (getitem (merge_blog_input_with_crawl space_input xy_crawled)
                (u "location_info")
              ++ [LF] ++ u "지도 링크: https://x/y").
Proof.
  split; [|split].
  - vm_compute. reflexivity.
  - vm_compute. reflexivity.
  - vm_compute. discriminate.
Qed.

(** C6, amended. Merging the same crawl record into an already merged map
    [m] changes no field other than [location_info]; there the append
    happens again on the stripped value: the value of [m], stripped of
    white space at its ends, is followed by a line feed and the link
    line. *)
Theorem merge_twice_only_appends
    (d : gmap pystr pystr) (c : CrawledPlaceData) :
  (forall k, k <> u "location_info" ->
     merge_blog_input_with_crawl (merge_blog_input_with_crawl d c) c !! k
     = merge_blog_input_with_crawl d c !! k)
  /\ merge_blog_input_with_crawl (merge_blog_input_with_crawl d c) c
       !! u "location_info"
     = Some (strip (getitem (merge_blog_input_with_crawl d c)
                      (u "location_info"))
             ++ [LF] ++ u "지도 링크: " ++ source_url c).
Proof.
  split.
  - intros k Hk.
    destruct (List.in_dec (fun a b : pystr => decide (a = b)) k
                recognized_fields) as [Hin|Hout].
    + unfold recognized_fields, backfill_fields in Hin. cbn [In] in Hin.
      destruct Hin as [<-|[<-|[<-|[<-|[<-|[<-|[<-|[<-|[<-|[]]]]]]]]]].
      * now elim Hk.
      * rewrite !merge_place_name. apply fill_value_idem.
      * rewrite !merge_business_hours. apply fill_value_idem.
      * rewrite !merge_home_tab_info. apply fill_value_idem.
      * rewrite !merge_menu_tab_info. apply fill_value_idem.
      * rewrite !merge_info_tab_info. apply fill_value_idem.
      * rewrite !merge_news_tab_info. apply fill_value_idem.
      * rewrite !merge_parking_or_tips. apply fill_value_idem.
      * rewrite (merge_target_keyword (merge_blog_input_with_crawl d c)).
        rewrite (merge_place_name (merge_blog_input_with_crawl d c)).
        rewrite (merge_target_keyword d). rewrite !merge_place_name.
        rewrite fill_value_idem. apply fill_value_idem.
    + now rewrite !merge_other.
  - rewrite (merge_location_info (merge_blog_input_with_crawl d c)).
    unfold getitem. rewrite (merge_location_info d).
    unfold appended_location at 1. now rewrite link_line_truthy.
Qed.

Lemma merge_twice_only_appends_witness :
  merge_blog_input_with_crawl
    (merge_blog_input_with_crawl demo_input demo_crawled) demo_crawled
    !! u "target_keyword"
  = merge_blog_input_with_crawl demo_input demo_crawled !! u "target_keyword".
Proof.
  apply (proj1 (merge_twice_only_appends demo_input demo_crawled)).
  vm_compute. discriminate.
Defined.

(** ** Section text extractor *)

Lemma lstrip_with_head ws s c r :
  lstrip_with ws s = c :: r -> ws c = false.
Proof.
  induction s as [|a s IH]; simpl; [discriminate|].
  destruct (ws a) eqn:Ha; [exact IH|].
  intros [= <- <-]. exact Ha.
Qed.

(** The last character of a stripped string is no white space. *)
Lemma strip_with_last ws s c :
  last (strip_with ws s) = Some c -> ws c = false.
Proof.
  unfold strip_with.
  destruct (lstrip_with ws (rev (lstrip_with ws s))) as [|a r] eqn:Hr;
    [discriminate|].
  simpl. rewrite last_snoc. intros [= <-].
  eapply lstrip_with_head, Hr.
Qed.

Lemma rev_cons_last (l : pystr) c r : rev l = c :: r -> last l = Some c.
Proof.
  intros H. rewrite <- (rev_involutive l), H. simpl. apply last_snoc.
Qed.

Lemma last_rev_head (l : pystr) c :
  last l = Some c -> exists r, rev l = c :: r.
Proof.
  destruct (rev l) as [|a r] eqn:Hr.
  - apply (f_equal (@rev N)) in Hr. rewrite rev_involutive in Hr.
    subst l. discriminate.
  - intros Hl. rewrite (rev_cons_last _ _ _ Hr) in Hl.
    injection Hl as ->. now exists r.
Qed.

Section ExtractorFacts.
Variable ud : N -> bool.

Lemma drop_digits_app l r :
  Forall (fun c => is_digit ud c = true) l ->
  (forall c r', r = c :: r' -> is_digit ud c = false) ->
  drop_digits ud (l ++ r) = r.
Proof.
  intros Hl Hr. induction Hl as [|c l Hc _ IH]; simpl.
  - destruct r as [|c r']; [reflexivity|].
    simpl. now rewrite (Hr c r' eq_refl).
  - now rewrite Hc.
Qed.

(** [re.sub(r"\d+$", "", s)] removes the digit run at the end of a
    string that does not end in a line feed. *)
Lemma sub_trailing_digits_app body ds :
  Forall (fun c => is_digit ud c = true) ds ->
  (forall c, last body = Some c -> is_digit ud c = false) ->
  (forall c, last (body ++ ds) = Some c -> c <> LF) ->
  sub_trailing_digits ud (body ++ ds) = body.
Proof.
  intros Hds Hbody Hlf. unfold sub_trailing_digits.
  destruct (rev (body ++ ds)) as [|c r'] eqn:Hrev.
  - apply (f_equal (@rev N)) in Hrev. rewrite rev_involutive in Hrev.
    simpl in Hrev. now destruct body, ds.
  - pose proof (rev_cons_last _ _ _ Hrev) as Hlast.
    rewrite <- Hrev.
    destruct (is_digit ud c) eqn:Hc.
    + rewrite rev_app_distr, drop_digits_app.
      * apply rev_involutive.
      * now apply Forall_rev.
      * intros a r Ha. apply Hbody. eapply rev_cons_last, Ha.
    + assert ((c =? LF) = false) as ->
        by (apply N.eqb_neq; now apply Hlf).
      destruct ds as [|d ds _] using rev_ind.
      * now rewrite app_nil_r.
      * rewrite app_assoc, last_snoc in Hlast. injection Hlast as ->.
        apply Forall_app in Hds as [_ Hd]. inversion Hd; congruence.
Qed.

Lemma clean_block_spec block :
  clean_block ud block
  = let text := _normalize_text (default [] (b_text block)) in
    if negb (truthy text) || is_noise text then None
    else Some (with_header (clean_title ud (b_title block)) text).
Proof.
  unfold clean_block, is_noise. cbv zeta.
  destruct (negb _); [reflexivity|].
  destruct (is_button_block _); [reflexivity|].
  destruct (contains _ _); [reflexivity|].
  destruct (startswith _ _); [reflexivity|].
  now destruct (_ <? _)%nat.
Qed.
End ExtractorFacts.


Section FilterSamples.
Variable ud : N -> bool.
Variable title : option pystr.

Lemma clean_block_dropped text :
  negb (truthy (_normalize_text text)) || is_noise (_normalize_text text)
  = true ->
  clean_block ud {| b_title := title; b_text := Some text |} = None.
Proof.
  intros H. rewrite clean_block_spec. cbv zeta.
  change (default [] (b_text {| b_title := title; b_text := Some text |}))
    with text.
  now rewrite H.
Qed.

Lemma clean_block_kept text :
  negb (truthy (_normalize_text text)) || is_noise (_normalize_text text)
  = false ->
  clean_block ud {| b_title := title; b_text := Some text |}
  = Some (with_header (clean_title ud title) (_normalize_text text)).
Proof.
  intros H. rewrite clean_block_spec. cbv zeta.
  change (default [] (b_text {| b_title := title; b_text := Some text |}))
    with text.
  now rewrite H.
Qed.
End FilterSamples.

Lemma clean_title_none ud : clean_title ud None = [].
Proof. reflexivity. Qed.

(** C4. Whatever its header, a block whose text is the row of buttons is
    dropped; the block "짧다" is dropped, and the only test it fails is the
    length test (2 characters, fewer than 10); the business-hours block
    passes every test, normalization leaves its text as it is, and without
    a header the entry kept is exactly that text. *)
Theorem noise_filter_samples (ud : N -> bool) (title : option pystr) :
  clean_block ud {| b_title := title; b_text := Some buttons_text |} = None
  /\ (clean_block ud {| b_title := title; b_text := Some short_text |} = None
      /\ _normalize_text short_text = short_text
      /\ length short_text = 2%nat
      /\ is_button_block short_text = false
      /\ contains (u "정보 수정 제안하기") short_text = false
      /\ startswith (u "메뉴판 이미지로 보기") short_text = false)
  /\ (_normalize_text demo_hours = demo_hours
      /\ is_noise demo_hours = false
      /\ clean_block ud {| b_title := title; b_text := Some demo_hours |}
         = Some (with_header (clean_title ud title) demo_hours)
      /\ clean_block ud {| b_title := None; b_text := Some demo_hours |}
         = Some demo_hours
      /\ cleaned_blocks ud
           [ {| b_title := None; b_text := Some buttons_text |};
             {| b_title := None; b_text := Some short_text |};
             {| b_title := None; b_text := Some demo_hours |} ]
         = [demo_hours]).
Proof.
  assert (_normalize_text demo_hours = demo_hours) as Hnorm
    by (vm_compute; reflexivity).
  assert (forall t, clean_block ud {| b_title := t; b_text := Some demo_hours |}
                    = Some (with_header (clean_title ud t) demo_hours)) as Hkept.
  { intros t. rewrite clean_block_kept, Hnorm; [reflexivity|].
    vm_compute; reflexivity. }
  assert (forall t, clean_block ud {| b_title := t; b_text := Some buttons_text |}
                    = None) as Hbuttons
    by (intros t; apply clean_block_dropped; vm_compute; reflexivity).
  assert (forall t, clean_block ud {| b_title := t; b_text := Some short_text |}
                    = None) as Hshort
    by (intros t; apply clean_block_dropped; vm_compute; reflexivity).
  split; [apply Hbuttons|]. split.
  - split; [apply Hshort|].
    repeat apply conj; vm_compute; reflexivity.
  - split; [exact Hnorm|]. split; [vm_compute; reflexivity|].
    split; [apply Hkept|].
    assert (clean_block ud {| b_title := None; b_text := Some demo_hours |}
            = Some demo_hours) as Hplain.
    { rewrite Hkept, clean_title_none. reflexivity. }
    split; [exact Hplain|].
    unfold cleaned_blocks. cbn [omap list_omap].
    now rewrite Hbuttons, Hshort, Hplain.
Qed.

(** C7. The header of a block is its title stripped, without the digits at
    its end, stripped again.  For a block that passes the filter: when the
    cleaned header is non-empty and the normalized body does not start with
    it, the entry is the header, a line feed and the body; when the body
    starts with the header, the entry is the body alone.  Header "메뉴2"
    with a body that starts "메뉴\n" is not prepended; header "영업정보"
    with a body that does not start with it is. *)
Theorem header_prepended_unless_prefix (ud : N -> bool) (block : Block) :
  let title := clean_title ud (b_title block) in
  let text := _normalize_text (default [] (b_text block)) in
  (forall body ds,
     strip (default [] (b_title block)) = body ++ ds ->
     Forall (fun c => is_digit ud c = true) ds ->
     (forall c, last body = Some c -> is_digit ud c = false) ->
     title = strip body)
  /\ (truthy text = true -> is_noise text = false ->
      (truthy title = true -> startswith title text = false ->
       clean_block ud block = Some (title ++ [LF] ++ text))
      /\ (startswith title text = true -> clean_block ud block = Some text)).
Proof.
  cbv zeta. split.
  - intros body ds Hs Hds Hbody. unfold clean_title. rewrite Hs.
    rewrite sub_trailing_digits_app; auto.
    intros c Hc ->. rewrite <- Hs in Hc.
    apply strip_with_last in Hc. discriminate.
  - intros Ht Hn. rewrite clean_block_spec. cbv zeta.
    rewrite Ht, Hn. simpl. unfold with_header. split.
    + now intros -> ->.
    + intros ->. now rewrite andb_false_r.
Qed.

Lemma header_prepended_unless_prefix_witness :
  clean_title (fun _ => false) (Some (u "메뉴2")) = strip (u "메뉴")
  /\ clean_block (fun _ => false)
       {| b_title := Some (u "메뉴2"); b_text := Some menu_body |}
     = Some (_normalize_text (default [] (Some menu_body)))
  /\ clean_block (fun _ => false)
       {| b_title := Some (u "영업정보"); b_text := Some hours_body |}
     = Some (clean_title (fun _ => false) (Some (u "영업정보")) ++ [LF]
             ++ _normalize_text (default [] (Some hours_body))).
Proof.
  pose proof (header_prepended_unless_prefix (fun _ => false)
                {| b_title := Some (u "메뉴2"); b_text := Some menu_body |})
    as [H1 H2].
  pose proof (header_prepended_unless_prefix (fun _ => false)
                {| b_title := Some (u "영업정보"); b_text := Some hours_body |})
    as [_ H3].
  split; [|split].
  - refine (H1 (u "메뉴") (u "2") _ _ _).
    + vm_compute. reflexivity.
    + repeat constructor.
    + intros c Hc. vm_compute in Hc. injection Hc as <-. reflexivity.
  - refine (proj2 (H2 _ _) _); vm_compute; reflexivity.
  - refine (proj1 (H3 _ _) _ _); vm_compute; reflexivity.
Defined.

(** The two sample headers, evaluated. *)
Lemma header_samples :
  clean_block (fun _ => false)
    {| b_title := Some (u "메뉴2"); b_text := Some menu_body |}
  = Some menu_body
  /\ clean_block (fun _ => false)
       {| b_title := Some (u "영업정보"); b_text := Some hours_body |}
     = Some (u "영업정보" ++ [LF] ++ hours_body).
Proof. split; vm_compute; reflexivity. Qed.

(** ** URL resolver *)

Lemma lstrip_with_split ws s :
  exists sp, s = sp ++ lstrip_with ws s /\ Forall (fun c => ws c = true) sp.
Proof.
  induction s as [|c s [sp [Hs Hsp]]]; simpl.
  - now exists [].
  - destruct (ws c) eqn:Hc.
    + exists (c :: sp). split; [simpl; congruence | now constructor].
    + now exists [].
Qed.

Lemma strip_with_split ws s :
  exists a b, s = a ++ strip_with ws s ++ b
              /\ Forall (fun c => ws c = true) a
              /\ Forall (fun c => ws c = true) b.
Proof.
  unfold strip_with.
  destruct (lstrip_with_split ws s) as [a [Ha Hsa]].
  destruct (lstrip_with_split ws (rev (lstrip_with ws s))) as [b [Hb Hsb]].
  exists a, (rev b). repeat split; [|assumption|now apply Forall_rev].
  rewrite <- rev_app_distr, <- Hb, rev_involutive. exact Ha.
Qed.

Lemma lstrip_with_nil ws s :
  lstrip_with ws s = [] -> Forall (fun c => ws c = true) s.
Proof.
  induction s as [|c s IH]; simpl; [constructor|].
  destruct (ws c) eqn:Hc; [|discriminate].
  intros H. constructor; auto.
Qed.

Lemma lstrip_with_all ws s :
  Forall (fun c => ws c = true) s -> lstrip_with ws s = [].
Proof. induction 1 as [|c s Hc _ IH]; simpl; [|rewrite Hc]; auto. Qed.

(** A string is blank exactly when it is made of white space. *)
Lemma strip_nil_iff s :
  strip s = [] <-> Forall (fun c => is_space c = true) s.
Proof.
  unfold strip, strip_with. split.
  - intros H. apply (f_equal (@rev N)) in H. rewrite rev_involutive in H.
    simpl in H. apply lstrip_with_nil in H. apply Forall_rev in H.
    rewrite rev_involutive in H.
    destruct (lstrip_with is_space s) as [|c r] eqn:Hl.
    + now apply lstrip_with_nil.
    + apply lstrip_with_head in Hl. inversion H; congruence.
  - intros H. now rewrite (lstrip_with_all _ _ H).
Qed.

Lemma ascii_digit_not_space c : is_space c = true -> is_ascii_digit c = false.
Proof.
  intros Hs. unfold is_ascii_digit.
  destruct (N.leb_spec 48 c); [|reflexivity].
  destruct (N.leb_spec c 57); [|reflexivity].
  unfold is_space in Hs.
  rewrite !orb_true_iff, !andb_true_iff, !N.leb_le, !N.eqb_eq in Hs. lia.
Qed.

Section SearchFacts.
Variable ud : N -> bool.
Hypothesis ud_not_space : forall c, is_space c = true -> ud c = false.

Lemma digit_not_space c : is_space c = true -> is_digit ud c = false.
Proof.
  intros Hs. unfold is_digit.
  now rewrite ascii_digit_not_space, ud_not_space.
Qed.

Lemma strip_prefix_app lit x : strip_prefix lit (lit ++ x) = Some x.
Proof. induction lit; simpl; [|rewrite N.eqb_refl]; auto. Qed.

Lemma strip_prefix_Some lit s r : strip_prefix lit s = Some r -> s = lit ++ r.
Proof.
  revert s. induction lit as [|a lit IH]; intros s; simpl.
  - now intros [= ->].
  - destruct s as [|b s]; [discriminate|].
    destruct (N.eqb_spec a b) as [->|]; [|discriminate].
    intros H. now rewrite (IH _ H).
Qed.

Lemma take_digits_app ds rest :
  Forall (fun c => is_digit ud c = true) ds ->
  (forall c r, rest = c :: r -> is_digit ud c = false) ->
  take_digits ud (ds ++ rest) = ds.
Proof.
  intros Hds Hrest. induction Hds as [|c ds Hc _ IH]; simpl.
  - destruct rest as [|c r]; [reflexivity|].
    simpl. now rewrite (Hrest c r eq_refl).
  - now rewrite Hc, IH.
Qed.

Lemma match_here_occurs lit s ds :
  match_lit_digits_here ud lit s = Some ds -> occurs_at ud lit s 0.
Proof.
  unfold match_lit_digits_here.
  destruct (strip_prefix lit s) as [rest|] eqn:Hp; [|discriminate].
  apply strip_prefix_Some in Hp. subst s.
  destruct rest as [|d rest]; simpl; [discriminate|].
  destruct (is_digit ud d) eqn:Hd; [|discriminate].
  intros _. now exists [], d, rest.
Qed.

Lemma occurs_at_tail lit c s i :
  occurs_at ud lit s i -> occurs_at ud lit (c :: s) (S i).
Proof.
  intros [pre [d [rest [-> [Hd <-]]]]]. now exists (c :: pre), d, rest.
Qed.

(** No occurrence: [re.search] finds nothing. *)
Lemma re_search_none lit s :
  (forall i, ~ occurs_at ud lit s i) ->
  re_search_lit_digits ud lit s = None.
Proof.
  induction s as [|c s IH]; intros Hno; simpl.
  - destruct (match_lit_digits_here ud lit []) eqn:Hm; [|reflexivity].
    now apply match_here_occurs, Hno in Hm.
  - destruct (match_lit_digits_here ud lit (c :: s)) eqn:Hm.
    + now apply match_here_occurs, Hno in Hm.
    + apply IH. intros i Hi. eapply Hno, occurs_at_tail, Hi.
Qed.

(** The leftmost occurrence decides, and group 1 is the whole digit run
    after it. *)
Lemma re_search_first lit pre ds rest :
  ds <> [] ->
  Forall (fun c => is_digit ud c = true) ds ->
  (forall c r, rest = c :: r -> is_digit ud c = false) ->
  (forall i, (i < length pre)%nat ->
     ~ occurs_at ud lit (pre ++ lit ++ ds ++ rest) i) ->
  re_search_lit_digits ud lit (pre ++ lit ++ ds ++ rest) = Some ds.
Proof.
  intros Hne Hds Hrest. induction pre as [|c pre IH]; intros Hfirst.
  - assert (match_lit_digits_here ud lit (lit ++ ds ++ rest) = Some ds)
      as Hm.
    { unfold match_lit_digits_here.
      rewrite strip_prefix_app, take_digits_app by assumption.
      now destruct ds. }
    simpl. destruct (lit ++ ds ++ rest); simpl; now rewrite Hm.
  - simpl.
    destruct (match_lit_digits_here ud lit (c :: pre ++ lit ++ ds ++ rest))
      eqn:Hm.
    + apply match_here_occurs in Hm. exfalso.
      apply (Hfirst O); [simpl; lia | exact Hm].
    + apply IH. intros i Hi Hocc.
      apply (Hfirst (S i)); [simpl; lia|].
      now apply occurs_at_tail.
Qed.

(** Stripping the URL does not change what a pattern finds, as no pattern
    holds white space and no digit is white space. *)
Lemma strip_prefix_spaces lit t sp :
  forallb (fun c => negb (is_space c)) lit = true ->
  Forall (fun c => is_space c = true) sp ->
  strip_prefix lit (t ++ sp)
  = match strip_prefix lit t with
    | Some r => Some (r ++ sp)
    | None => None
    end.
Proof.
  intros Hlit Hsp. revert t.
  induction lit as [|a lit IH]; intros t; simpl; [reflexivity|].
  simpl in Hlit. apply andb_true_iff in Hlit as [Ha Hlit].
  destruct t as [|b t]; simpl.
  - destruct Hsp as [|w sp Hw _]; [reflexivity|].
    destruct (N.eqb_spec a w) as [->|]; [|reflexivity].
    now rewrite Hw in Ha.
  - destruct (a =? b); [now apply IH | reflexivity].
Qed.

Lemma take_digits_spaces r sp :
  Forall (fun c => is_space c = true) sp ->
  take_digits ud (r ++ sp) = take_digits ud r.
Proof.
  intros Hsp. induction r as [|c r IH]; simpl.
  - destruct Hsp as [|w sp Hw _]; [reflexivity|].
    simpl. now rewrite digit_not_space.
  - now rewrite IH.
Qed.

Lemma match_here_spaces lit t sp :
  forallb (fun c => negb (is_space c)) lit = true ->
  Forall (fun c => is_space c = true) sp ->
  match_lit_digits_here ud lit (t ++ sp) = match_lit_digits_here ud lit t.
Proof.
  intros Hlit Hsp. unfold match_lit_digits_here.
  rewrite strip_prefix_spaces by assumption.
  destruct (strip_prefix lit t); [|reflexivity].
  now rewrite take_digits_spaces.
Qed.

Lemma re_search_spaces_only lit sp :
  lit <> [] ->
  forallb (fun c => negb (is_space c)) lit = true ->
  Forall (fun c => is_space c = true) sp ->
  re_search_lit_digits ud lit sp = None.
Proof.
  intros Hne Hlit Hsp.
  assert (forall sp', Forall (fun c => is_space c = true) sp' ->
            match_lit_digits_here ud lit sp' = None) as Hm.
  { intros sp' Hsp'.
    rewrite <- (app_nil_l sp'), match_here_spaces by assumption.
    unfold match_lit_digits_here. now destruct lit. }
  induction Hsp as [|w sp Hw Hsp IH]; simpl.
  - now rewrite (Hm [] ltac:(constructor)).
  - rewrite (Hm (w :: sp)) by now constructor. exact IH.
Qed.

Lemma re_search_trailing_spaces lit t sp :
  lit <> [] ->
  forallb (fun c => negb (is_space c)) lit = true ->
  Forall (fun c => is_space c = true) sp ->
  re_search_lit_digits ud lit (t ++ sp) = re_search_lit_digits ud lit t.
Proof.
  intros Hne Hlit Hsp. induction t as [|c t IH].
  - rewrite app_nil_l, re_search_spaces_only by assumption.
    simpl. unfold match_lit_digits_here. now destruct lit.
  - change ((c :: t) ++ sp) with (c :: (t ++ sp)).
    cbn [re_search_lit_digits].
    change (c :: (t ++ sp)) with ((c :: t) ++ sp).
    now rewrite match_here_spaces, IH.
Qed.

Lemma re_search_leading_spaces lit sp x :
  lit <> [] ->
  forallb (fun c => negb (is_space c)) lit = true ->
  Forall (fun c => is_space c = true) sp ->
  re_search_lit_digits ud lit (sp ++ x) = re_search_lit_digits ud lit x.
Proof.
  intros Hne Hlit Hsp. induction Hsp as [|w sp Hw _ IH]; [reflexivity|].
  change ((w :: sp) ++ x) with (w :: (sp ++ x)).
  cbn [re_search_lit_digits].
  assert (match_lit_digits_here ud lit (w :: sp ++ x) = None) as ->; [|exact IH].
  unfold match_lit_digits_here.
  destruct lit as [|a lit]; [contradiction|].
  simpl in Hlit. apply andb_true_iff in Hlit as [Ha _]. simpl.
  destruct (N.eqb_spec a w) as [->|]; [|reflexivity].
  now rewrite Hw in Ha.
Qed.

Lemma re_search_strip lit s :
  lit <> [] ->
  forallb (fun c => negb (is_space c)) lit = true ->
  re_search_lit_digits ud lit (strip s) = re_search_lit_digits ud lit s.
Proof.
  intros Hne Hlit.
  destruct (strip_with_split is_space s) as [a [b [Hs [Ha Hb]]]].
  fold (strip s) in Hs. rewrite Hs at 2.
  now rewrite re_search_leading_spaces, re_search_trailing_spaces.
Qed.
End SearchFacts.

Section SearchComplete.
Variable ud : N -> bool.

(** What [re.search] does not find does not occur. *)
Lemma re_search_none_inv lit s :
  re_search_lit_digits ud lit s = None ->
  forall i, ~ occurs_at ud lit s i.
Proof.
  induction s as [|c s IH]; simpl;
    destruct (match_lit_digits_here ud lit _) eqn:Hm; try discriminate;
    intros Hs i [pre [d [rest [Heq [Hd Hlen]]]]].
  - destruct pre; [|discriminate]. simpl in Heq.
    unfold match_lit_digits_here in Hm.
    rewrite Heq, strip_prefix_app in Hm. simpl in Hm.
    now rewrite Hd in Hm.
  - destruct pre as [|a pre].
    + simpl in Heq. unfold match_lit_digits_here in Hm.
      rewrite Heq, strip_prefix_app in Hm. simpl in Hm.
      now rewrite Hd in Hm.
    + injection Heq as -> ->.
      apply (IH Hs (length pre)). now exists pre, d, rest.
Qed.

(** The occurrences before offset [n] lie within the first
    [n + length lit] characters. *)
Lemma no_occurrence_before lit s n :
  re_search_lit_digits ud lit (take (n + length lit) s) = None ->
  forall i, (i < n)%nat -> ~ occurs_at ud lit s i.
Proof.
  intros Hs i Hi [pre [d [rest [-> [Hd Hlen]]]]].
  apply (re_search_none_inv _ _ Hs i).
  exists pre, d, (take (n - S i) rest). repeat split; [|assumption..].
  rewrite take_app, take_app. simpl.
  rewrite (take_ge pre), (take_ge lit) by lia.
  replace (n + length lit - length pre - length lit)%nat
    with (S (n - S i)) by lia.
  reflexivity.
Qed.
End SearchComplete.

Section ResolverClaims.
Context (E : Env).

Lemma search_patterns_strip url :
  search_patterns E patterns (strip url) = search_patterns E patterns url.
Proof.
  unfold patterns. cbn [search_patterns].
  rewrite !(re_search_strip _ (uni_decimal_not_space E));
    solve [ reflexivity | intros H; vm_compute in H; discriminate H ].
Qed.

Lemma search_patterns_pick ps raw k lit ds :
  ps !! k = Some lit ->
  (forall j lit', (j < k)%nat -> ps !! j = Some lit' ->
     re_search_lit_digits (uni_decimal E) lit' raw = None) ->
  re_search_lit_digits (uni_decimal E) lit raw = Some ds ->
  search_patterns E ps raw = Some ds.
Proof.
  revert k. induction ps as [|p ps IH]; intros k Hk Hbefore Hlit.
  - destruct k; discriminate.
  - destruct k as [|k]; simpl in *.
    + injection Hk as ->. now rewrite Hlit.
    + rewrite (Hbefore O p) by (simpl; auto; lia).
      apply (IH k); [assumption| |assumption].
      intros j lit' Hj Hl. apply (Hbefore (S j)); [lia | exact Hl].
Qed.

Lemma search_patterns_none ps raw :
  (forall lit, In lit ps ->
     re_search_lit_digits (uni_decimal E) lit raw = None) ->
  search_patterns E ps raw = None.
Proof.
  induction ps as [|p ps IH]; intros H; simpl; [reflexivity|].
  rewrite (H p) by now left. apply IH. intros lit Hl. apply H. now right.
Qed.

(** Without a shortener host no request is made: the state is the one
    before the call and the patterns are searched in the URL itself. *)
Lemma extract_place_id_direct url netloc s :
  strip url <> [] ->
  urlparse_netloc E (strip url) = Ok netloc ->
  contains (u "naver.me") (str_lower E netloc) = false ->
  extract_place_id E url s
  = (s, match search_patterns E patterns url with
        | Some ds => Ok ds
        | None => Raise (mk_exn ValueError msg_id_not_found)
        end).
Proof.
  intros Hne Hnet Hhost. unfold extract_place_id.
  assert (truthy (strip url) = true) as ->
    by (destruct (strip url); [contradiction | reflexivity]).
  cbv zeta. simpl negb. cbv iota.
  unfold bind, of_result. rewrite Hnet, Hhost. unfold ret.
  rewrite search_patterns_strip.
  now destruct (search_patterns E patterns url).
Qed.

(** C2. Let the host of the URL be no shortener.  If the pattern number
    [k] of the list ([/entry/place/], [/place/], [placeId=]) stands in
    the URL followed by the digit run [ds], no pattern before it in the
    list matches anywhere, and this is its leftmost match, then
    [extract_place_id] returns exactly [ds], and does so without any
    request (the state is unchanged). *)
Theorem extract_place_id_returns_digits
    (url netloc lit pre ds rest : pystr) (k : nat) (s : St E) :
  urlparse_netloc E (strip url) = Ok netloc ->
  contains (u "naver.me") (str_lower E netloc) = false ->
  patterns !! k = Some lit ->
  url = pre ++ lit ++ ds ++ rest ->
  ds <> [] ->
  Forall (fun c => is_digit (uni_decimal E) c = true) ds ->
  (forall c r, rest = c :: r -> is_digit (uni_decimal E) c = false) ->
  (forall j lit' i, (j < k)%nat -> patterns !! j = Some lit' ->
     ~ occurs_at (uni_decimal E) lit' url i) ->
  (forall i, (i < length pre)%nat -> ~ occurs_at (uni_decimal E) lit url i) ->
  extract_place_id E url s = (s, Ok ds).
Proof.
  intros Hnet Hhost Hk -> Hne Hds Hrest Hbefore Hfirst.
  assert (search_patterns E patterns (pre ++ lit ++ ds ++ rest) = Some ds)
    as Hfound.
  { apply (search_patterns_pick _ _ k lit); [assumption| |].
    - intros j lit' Hj Hl. apply re_search_none.
      intros i. now apply (Hbefore j).
    - now apply re_search_first. }
  rewrite (extract_place_id_direct _ netloc); [now rewrite Hfound| |auto..].
  intros Hblank. rewrite <- search_patterns_strip, Hblank in Hfound.
  vm_compute in Hfound. discriminate.
Qed.

(** C3, amended. A URL that is empty or made of white space fails with
    [ValueError] and the message of the empty URL; a URL that is not
    blank, whose host is no shortener and in which no pattern occurs
    fails with [ValueError] and the message of the missing identifier.
    Both are the same exception class; the messages differ. *)
Theorem extract_place_id_errors (url : pystr) (s : St E) :
  (Forall (fun c => is_space c = true) url ->
   extract_place_id E url s = (s, Raise (mk_exn ValueError msg_url_empty)))
  /\ (forall netloc,
        ~ Forall (fun c => is_space c = true) url ->
        urlparse_netloc E (strip url) = Ok netloc ->
        contains (u "naver.me") (str_lower E netloc) = false ->
        (forall lit i, In lit patterns ->
           ~ occurs_at (uni_decimal E) lit url i) ->
        extract_place_id E url s
        = (s, Raise (mk_exn ValueError msg_id_not_found)))
  /\ msg_url_empty <> msg_id_not_found.
Proof.
  split; [|split].
  - intros Hblank. apply strip_nil_iff in Hblank.
    unfold extract_place_id. now rewrite Hblank.
  - intros netloc Hnb Hnet Hhost Hno.
    rewrite (extract_place_id_direct _ netloc); auto.
    + rewrite search_patterns_none; [reflexivity|].
      intros lit Hl. apply re_search_none. intros i. now apply Hno.
    + intros Hblank. now apply Hnb, strip_nil_iff.
  - intros H. vm_compute in H. discriminate H.
Qed.
End ResolverClaims.

Lemma extract_place_id_returns_digits_witness :
  extract_place_id demo_env sample_url demo_start = (demo_start, Ok (u "123")).
Proof.
  apply (extract_place_id_returns_digits demo_env sample_url
           (u "map.naver.com") (u "/place/")
           (u "  https://map.naver.com/p/search/x")
           (u "123") (u "?c=1&placeId=77 ") 1 demo_start).
  - vm_compute. reflexivity.
  - vm_compute. reflexivity.
  - vm_compute. reflexivity.
  - vm_compute. reflexivity.
  - intros H. vm_compute in H. discriminate H.
  - repeat constructor.
  - intros c r H. vm_compute in H. injection H as <- _. reflexivity.
  - intros j lit' i Hj Hl.
    destruct j as [|j]; [|lia]. vm_compute in Hl. injection Hl as <-.
    apply re_search_none_inv. vm_compute. reflexivity.
  - apply no_occurrence_before. vm_compute. reflexivity.
Defined.

Lemma extract_place_id_errors_witness :
  extract_place_id demo_env (u "   ") demo_start
  = (demo_start, Raise (mk_exn ValueError msg_url_empty))
  /\ extract_place_id demo_env (u "https://example.com/") demo_start
     = (demo_start, Raise (mk_exn ValueError msg_id_not_found)).
Proof.
  split.
  - apply (proj1 (extract_place_id_errors demo_env (u "   ") demo_start)).
    repeat constructor.
  - apply (proj1 (proj2 (extract_place_id_errors demo_env
                           (u "https://example.com/") demo_start))
             (u "example.com")).
    + intros H. vm_compute in H. inversion H as [|? ? Hc _]. discriminate Hc.
    + vm_compute. reflexivity.
    + vm_compute. reflexivity.
    + intros lit i Hl. apply re_search_none_inv.
      vm_compute in Hl.
      destruct Hl as [<-|[<-|[<-|[]]]]; vm_compute; reflexivity.
Defined.

(** C3, as stated, fails: the two failures are one exception class
    ([ValueError]), told apart by the message only; and a URL in which no
    pattern occurs need not fail, as the patterns are searched in the URL
    a shortener host redirects to. *)
Lemma extract_place_id_one_error_class :
  (exists e1 e2,
     snd (extract_place_id demo_env (u "   ") demo_start) = Raise e1
     /\ snd (extract_place_id demo_env (u "https://example.com/") demo_start)
        = Raise e2
     /\ exn_cls e1 = exn_cls e2)
  /\ search_patterns demo_env patterns (u "https://naver.me/abc") = None
  /\ snd (extract_place_id demo_env (u "https://naver.me/abc") demo_start)
     = Ok (u "1234567").
Proof.
  split; [|split].
  - exists (mk_exn ValueError msg_url_empty),
           (mk_exn ValueError msg_id_not_found).
    split; [|split]; vm_compute; reflexivity.
  - vm_compute. reflexivity.
  - vm_compute. reflexivity.
Qed.

(** ** Crawl orchestrator *)

Lemma goto_urls_app t1 t2 : goto_urls (t1 ++ t2) = goto_urls t1 ++ goto_urls t2.
Proof. apply omap_app. Qed.

Section MonadFacts.
Context {E : Env}.

Lemma bind_ok {A B} (c : M E A) (k : A -> M E B) s s' b :
  bind c k s = (s', Ok b) ->
  exists a s1, c s = (s1, Ok a) /\ k a s1 = (s', Ok b).
Proof.
  unfold bind. destruct (c s) as [s1 [a|e]]; [|discriminate].
  intros H. now exists a, s1.
Qed.

Lemma perform_trace {A} ev (op : World E -> World E * result A) s s' r :
  perform ev op s = (s', r) -> trace s' = trace s ++ [ev].
Proof.
  unfold perform. destruct (op (world s)) as [w r']. now intros [= <- _].
Qed.

Lemma quiet_ret {A} (a : A) : quiet (E := E) (ret a).
Proof. now intros s s' r [= <- _]. Qed.

Lemma quiet_raise {A} e : quiet (E := E) (A := A) (raise e).
Proof. now intros s s' r [= <- _]. Qed.

Lemma quiet_read {A} (f : World E -> A) : quiet (read f).
Proof. now intros s s' r [= <- _]. Qed.

Lemma quiet_of_result {A} (x : result A) : quiet (E := E) (of_result x).
Proof. now intros s s' r [= <- _]. Qed.

Lemma quiet_bind {A B} (c : M E A) (k : A -> M E B) :
  quiet c -> (forall a, quiet (k a)) -> quiet (bind c k).
Proof.
  intros Hc Hk s s' r. unfold bind.
  destruct (c s) as [s1 [a|e]] eqn:Hcs.
  - intros H. rewrite (Hk a _ _ _ H). eapply Hc, Hcs.
  - intros [= <- _]. eapply Hc, Hcs.
Qed.

Lemma quiet_try_except {A} (c : M E A) h :
  quiet c -> (forall e, quiet (h e)) -> quiet (try_except c h).
Proof.
  intros Hc Hh s s' r. unfold try_except.
  destruct (c s) as [s1 [a|e]] eqn:Hcs.
  - intros [= <- _]. eapply Hc, Hcs.
  - intros H. rewrite (Hh e _ _ _ H). eapply Hc, Hcs.
Qed.

Lemma quiet_perform {A} ev (op : World E -> World E * result A) :
  goto_urls [ev] = [] -> quiet (perform ev op).
Proof.
  intros Hev s s' r H. rewrite (perform_trace _ _ _ _ _ H).
  now rewrite goto_urls_app, Hev, app_nil_r.
Qed.
End MonadFacts.

Section CrawlerFacts.
Context (E : Env).

Lemma quiet_wait ms : quiet (wait E ms).
Proof. now apply quiet_perform. Qed.

Lemma quiet_get_place_frame : quiet (_get_place_frame E).
Proof. apply quiet_read. Qed.

Lemma quiet_expand_attempt frame : quiet (expand_attempt E frame).
Proof.
  unfold expand_attempt.
  apply quiet_bind; [now apply quiet_perform|intros _].
  apply quiet_bind; [now apply quiet_perform|intros d].
  destruct (find_expand_target d); [|apply quiet_ret].
  apply quiet_bind; [now apply quiet_perform|intros _]. apply quiet_ret.
Qed.

Lemma quiet_expand_business_hours frame :
  quiet (_expand_business_hours E frame).
Proof.
  apply quiet_try_except; [apply quiet_expand_attempt|].
  intros e. apply quiet_ret.
Qed.

Lemma quiet_expand_loop n frame pause : quiet (expand_loop E n frame pause).
Proof.
  induction n as [|n IH]; simpl; [apply quiet_ret|].
  apply quiet_bind; [apply quiet_expand_business_hours|].
  intros [|]; [apply quiet_wait|].
  apply quiet_bind; [apply quiet_wait | intros _; exact IH].
Qed.

Lemma quiet_extract_text frame : quiet (extract_text E frame).
Proof.
  unfold extract_text, _extract_tab_sections_text,
    _extract_visible_panel_text.
  apply quiet_bind.
  - apply quiet_bind; [now apply quiet_perform|intros d; apply quiet_ret].
  - intros t. destruct (truthy t); [apply quiet_ret|].
    apply quiet_bind; [now apply quiet_perform|intros d; apply quiet_ret].
Qed.

Lemma quiet_extract_tab_links frame : quiet (_extract_tab_links E frame).
Proof.
  apply quiet_bind; [now apply quiet_perform|intros d; apply quiet_ret].
Qed.

Ltac failed_attempt :=
  eexists _, false; split; [reflexivity|];
  split;
  [ let H := fresh in
    intros ? ? H; injection H as <- _; split; reflexivity
  | repeat apply conj; intros; first [reflexivity | discriminate] ].

(** C9. [_expand_business_hours] always returns a truth value and never
    raises.  When a step of its [try] block raises (the scroll script,
    the evaluation of the search script, or the click), it returns
    [False].  It returns [True] only when both evaluations went through,
    the search script found a candidate whose trimmed text holds an
    expand word and a time or the last-order word, and that candidate
    was clicked. *)
Theorem expand_business_hours_best_effort (frame : Frame) (s : St E) :
  exists s' b,
    _expand_business_hours E frame s = (s', Ok b)
    /\ (forall s1 e, expand_attempt E frame s = (s1, Raise e) ->
          b = false /\ s' = s1)
    /\ (forall w e, frame_scroll_nudge E frame (world s) = (w, Raise e) ->
          b = false)
    /\ (forall w1 w2 x e,
          frame_scroll_nudge E frame (world s) = (w1, Ok x) ->
          frame_document E frame w1 = (w2, Raise e) -> b = false)
    /\ (forall w1 w2 w3 x d target e,
          frame_scroll_nudge E frame (world s) = (w1, Ok x) ->
          frame_document E frame w1 = (w2, Ok d) ->
          find_expand_target d = Some target ->
          element_click E frame target w2 = (w3, Raise e) -> b = false)
    /\ (b = true ->
        exists w1 w2 w3 d target,
          frame_scroll_nudge E frame (world s) = (w1, Ok tt)
          /\ frame_document E frame w1 = (w2, Ok d)
          /\ In target (querySelectorAll d sel_expand)
          /\ hasExpandWord (js_trim (default [] (innerText d target))) = true
          /\ hasTimePattern (js_trim (default [] (innerText d target))) = true
          /\ element_click E frame target w2 = (w3, Ok tt)
          /\ s' = mk_St w3 (trace s ++ [EvEvaluate frame; EvEvaluate frame;
                                        EvClick frame target])).
Proof.
  unfold _expand_business_hours, try_except, expand_attempt, bind, perform,
    ret.
  destruct (frame_scroll_nudge E frame (world s)) as [w1 [[]|e1]] eqn:H1;
    cbn [world trace].
  2:{ failed_attempt. }
  destruct (frame_document E frame w1) as [w2 [d|e2]] eqn:H2;
    cbn [world trace].
  2:{ failed_attempt. }
  destruct (find_expand_target d) as [target|] eqn:H3;
    cbv beta iota; cbn [world trace].
  2:{ failed_attempt. }
  destruct (element_click E frame target w2) as [w3 [[]|e3]] eqn:H4;
    cbn [world trace].
  2:{ failed_attempt. }
  eexists _, true. split; [reflexivity|].
  repeat apply conj; try (intros; congruence).
  intros _. exists w1, w2, w3, d, target.
  unfold find_expand_target in H3.
  pose proof (find_some _ _ H3) as [Hin Htarget].
  unfold is_expand_target in Htarget.
  destruct (negb (truthy _)); [discriminate|].
  apply andb_true_iff in Htarget as [Hw Ht].
  repeat split; try assumption.
  now rewrite <- !app_assoc.
Qed.
End CrawlerFacts.

Lemma expand_business_hours_best_effort_witness :
  exists s',
    _expand_business_hours demo_env demo_frame demo_start = (s', Ok true)
    /\ In (EvClick demo_frame 20) (trace s').
Proof.
  destruct (expand_business_hours_best_effort demo_env demo_frame demo_start)
    as (s' & b & Hrun & _ & _ & _ & _ & Htrue).
  assert (b = true) as ->.
  { vm_compute in Hrun. now injection Hrun as _ <-. }
  exists s'. split; [exact Hrun|].
  destruct (Htrue eq_refl) as (w1 & w2 & w3 & d & target & _ & Hd & _ & _ & _ & _ & ->).
  assert (target = 20) as ->.
  { vm_compute in Hrun. now injection Hrun as <-. }
  cbn [trace]. apply in_or_app. right. simpl. auto.
Defined.

Section OrchestratorClaims.
Context (E : Env).

Lemma bind_cases {A B} (c : M E A) (k : A -> M E B) s s' r :
  bind c k s = (s', r) ->
  (exists a s1, c s = (s1, Ok a) /\ k a s1 = (s', r))
  \/ (exists e, c s = (s', Raise e) /\ r = Raise e).
Proof.
  unfold bind. destruct (c s) as [s1 [a|e]].
  - intros H. left. now exists a, s1.
  - intros [= <- <-]. right. now exists e.
Qed.

Lemma quiet_extract_place_id url : quiet (extract_place_id E url).
Proof.
  unfold extract_place_id.
  destruct (negb _); [apply quiet_raise|]. cbv zeta.
  apply quiet_bind; [apply quiet_of_result|intros netloc].
  apply quiet_bind.
  - destruct (contains _ _); [now apply quiet_perform|apply quiet_ret].
  - intros raw. destruct (search_patterns _ _ _);
      [apply quiet_ret|apply quiet_raise].
Qed.

Lemma prepare_event_loop_trace s s' r :
  prepare_event_loop E s = (s', r) -> trace s' = trace s /\ r = Ok tt.
Proof.
  unfold prepare_event_loop.
  destruct (startswith _ _); now intros [= <- <-].
Qed.

(** A visit navigates once, to the URL of the tab. *)
Lemma visit_tab_trace key url s s' r :
  visit_tab E key url s = (s', r) ->
  goto_urls (trace s') = goto_urls (trace s) ++ [url].
Proof.
  intros H. unfold visit_tab in H.
  apply bind_cases in H as [([] & s1 & Hg & H)|(e & Hg & _)];
    pose proof (perform_trace _ _ _ _ _ Hg) as Ht.
  - assert (goto_urls (trace s') = goto_urls (trace s1)) as ->.
    { revert H. apply quiet_bind; [apply quiet_wait|intros _].
      apply quiet_bind; [apply quiet_get_place_frame|intros found].
      apply quiet_bind;
        [destruct found; [apply quiet_ret|apply quiet_read]|intros f].
      apply quiet_bind; [|intros _; apply quiet_extract_text].
      destruct (_ || _); [apply quiet_expand_loop|apply quiet_ret]. }
    now rewrite Ht, goto_urls_app.
  - now rewrite Ht, goto_urls_app.
Qed.

(** The loop body for a tab without a link: the empty text is recorded
    and nothing else happens. *)
Lemma crawl_tab_absent links label key result s :
  str_eqb key (u "home") = false ->
  is_blank links label = true ->
  crawl_tab E links (label, key) result s = (s, Ok (<[key := []]> result)).
Proof.
  intros Hkey Hblank. unfold crawl_tab. rewrite Hkey.
  unfold is_blank in Hblank.
  destruct (links !! label) as [[|c href]|]; [reflexivity| |reflexivity].
  discriminate.
Qed.

Lemma crawl_tab_spec links label key result s s' result' :
  str_eqb key (u "home") = false ->
  crawl_tab E links (label, key) result s = (s', Ok result') ->
  exists t,
    result' = <[key := t]> result
    /\ goto_urls (trace s')
       = goto_urls (trace s) ++ option_list (tab_url E links label)
    /\ (is_blank links label = true -> t = []).
Proof.
  intros Hkey H.
  destruct (is_blank links label) eqn:Hblank.
  - rewrite crawl_tab_absent in H by assumption. injection H as <- <-.
    exists []. repeat split.
    unfold tab_url. unfold is_blank in Hblank.
    destruct (links !! label) as [[|c href]|];
      [| discriminate |]; simpl; now rewrite app_nil_r.
  - unfold crawl_tab in H. rewrite Hkey in H.
    unfold tab_url. unfold is_blank in Hblank.
    destruct (links !! label) as [[|c href]|]; [discriminate| |discriminate].
    apply bind_ok in H as (url & s1 & Hu & H).
    unfold of_result in Hu. injection Hu as <- Hu. rewrite Hu.
    apply bind_ok in H as (t & s2 & Hv & H).
    injection H as <- <-. exists t. repeat split; [|discriminate].
    eapply visit_tab_trace, Hv.
Qed.

Lemma tabs_loop_spec links result s s' result' :
  for_each E label_to_key (crawl_tab E links) result s = (s', Ok result') ->
  exists tm ti tn,
    result' = <[u "news" := tn]> (<[u "info" := ti]>
                (<[u "menu" := tm]> result))
    /\ goto_urls (trace s') = goto_urls (trace s) ++ tab_urls E links
    /\ (is_blank links (u "메뉴") = true -> tm = [])
    /\ (is_blank links (u "정보") = true -> ti = [])
    /\ (is_blank links (u "소식") = true -> tn = []).
Proof.
  unfold label_to_key. cbn [for_each]. intros H.
  apply bind_ok in H as (r0 & s0 & H0 & H).
  change (crawl_tab E links (u "홈", u "home") result s)
    with (ret (E := E) result s) in H0.
  injection H0 as <- <-.
  apply bind_ok in H as (r1 & s1 & H1 & H).
  apply crawl_tab_spec in H1 as (tm & -> & Hg1 & Hb1); [|reflexivity].
  apply bind_ok in H as (r2 & s2 & H2 & H).
  apply crawl_tab_spec in H2 as (ti & -> & Hg2 & Hb2); [|reflexivity].
  apply bind_ok in H as (r3 & s3 & H3 & H).
  apply crawl_tab_spec in H3 as (tn & -> & Hg3 & Hb3); [|reflexivity].
  injection H as <- <-.
  exists tm, ti, tn. repeat split; try assumption.
  rewrite Hg3, Hg2, Hg1, <- !app_assoc. f_equal.
  unfold tab_urls. cbn [omap list_omap].
  destruct (tab_url E links (u "메뉴")), (tab_url E links (u "정보")),
    (tab_url E links (u "소식")); reflexivity.
Qed.

Lemma crawl_session_spec home timeout_ms headless result s s' result' :
  crawl_session E home timeout_ms headless result s = (s', Ok result') ->
  exists frame s1 s2 links th tm ti tn,
    goto_urls (trace s1) = goto_urls (trace s) ++ [home]
    /\ _extract_tab_links E frame s1 = (s2, Ok links)
    /\ result' = <[u "news" := tn]> (<[u "info" := ti]>
                   (<[u "menu" := tm]> (<[u "home" := th]> result)))
    /\ goto_urls (trace s')
       = goto_urls (trace s) ++ home :: tab_urls E links
    /\ (is_blank links (u "메뉴") = true -> tm = [])
    /\ (is_blank links (u "정보") = true -> ti = [])
    /\ (is_blank links (u "소식") = true -> tn = []).
Proof.
  unfold crawl_session. intros H.
  apply bind_ok in H as ([] & sa & Ha & H).
  apply perform_trace in Ha.
  apply bind_ok in H as ([] & sb & Hb & H).
  apply perform_trace in Hb.
  apply bind_ok in H as ([] & sc & Hc & H).
  apply perform_trace in Hc.
  apply bind_ok in H as (found & sd & Hd & H).
  unfold _get_place_frame, read in Hd. injection Hd as <- _.
  destruct found as [frame|]; [|discriminate].
  apply bind_ok in H as (links & se & He & H).
  apply bind_ok in H as ([] & sf & Hf & H).
  apply quiet_expand_loop in Hf.
  apply bind_ok in H as (th & sg & Hg & H).
  apply quiet_extract_text in Hg.
  cbv zeta in H.
  apply bind_ok in H as (res & sh & Hh & H).
  apply tabs_loop_spec in Hh as (tm & ti & tn & -> & Hnav & Hbm & Hbi & Hbn).
  apply bind_ok in H as ([] & si & Hi & H).
  apply perform_trace in Hi. injection H as <- <-.
  assert (goto_urls (trace sc) = goto_urls (trace s) ++ [home]) as Hhome.
  { rewrite Hc, Hb, Ha, !goto_urls_app. simpl.
    now rewrite !app_nil_r. }
  exists frame, sc, se, links, th, tm, ti, tn.
  repeat split; try assumption.
  rewrite Hi, goto_urls_app, Hnav, Hg, Hf.
  rewrite (quiet_extract_tab_links _ _ _ _ _ He), Hhome.
  simpl. now rewrite app_nil_r, <- app_assoc.
Qed.

(** A successful run, taken apart. *)
Lemma crawl_place_tabs_spec map_url timeout_ms headless s s' r :
  crawl_place_tabs E map_url timeout_ms headless s = (s', Ok r) ->
  exists s0 sa sb sc result',
    prepare_event_loop E s = (s0, Ok tt)
    /\ extract_place_id E map_url s0 = (sa, Ok (place_id r))
    /\ source_url r = map_entry_home_of (place_id r)
    /\ trace sb = trace sa
    /\ crawl_session E (source_url r) timeout_ms headless empty_result sb
       = (sc, Ok result')
    /\ trace s' = trace sc
    /\ home_text r = getitem result' (u "home")
    /\ menu_text r = getitem result' (u "menu")
    /\ info_text r = getitem result' (u "info")
    /\ news_text r = getitem result' (u "news").
Proof.
  unfold crawl_place_tabs.
  destruct (playwright_available E); [|discriminate]. simpl negb. cbv iota.
  intros H.
  apply bind_ok in H as ([] & s0 & H0 & H).
  apply bind_ok in H as (pid & sa & Ha & H). cbv zeta in H.
  apply bind_ok in H as (result' & sd & Hs & H).
  injection H as <- <-. cbn [place_id source_url home_text menu_text
                               info_text news_text].
  unfold translate_not_implemented, try_except, with_playwright in Hs.
  destruct (playwright_enter E (world sa)) as [w [[]|e]].
  - destruct (crawl_session E _ _ _ _ _) as [sc [res|e]] eqn:Hrun.
    + injection Hs as <- <-.
      exists s0, sa, (mk_St w (trace sa)), sc, res.
      repeat split; assumption.
    + unfold raise in Hs. destruct (exn_cls e); discriminate.
  - unfold raise in Hs. destruct (exn_cls e); discriminate.
Qed.
End OrchestratorClaims.

Lemma map_entry_home_of_eq (x : pystr) :
  map_entry_home_of x
  = u "https://map.naver.com/p/entry/place/" ++ x ++ u "?placePath=%2Fhome".
Proof. unfold map_entry_home_of. reflexivity. Qed.

(** Whatever was there, the value written to [location_info] ends with the
    link line. *)
Lemma appended_location_suffix (c : CrawledPlaceData) (o : option pystr) :
  exists before,
    appended_location c o = before ++ u "지도 링크: " ++ source_url c.
Proof.
  unfold appended_location, link_line.
  destruct (negb (blank_value o)).
  - exists (strip (default [] o) ++ [LF]).
    rewrite <- (app_assoc (strip _) [LF]). reflexivity.
  - exists []. rewrite app_nil_l. reflexivity.
Qed.

Section OrchestratorTheorems.
Context (E : Env).

Lemma getitem_insert_eq (m : gmap pystr pystr) k v :
getitem (<[k := v]> m) k = v.
Proof. unfold getitem. now rewrite lookup_insert_eq. Qed.

Lemma getitem_insert_ne (m : gmap pystr pystr) k j v :
k <> j -> getitem (<[k := v]> m) j = getitem m j.
Proof. intros H. unfold getitem. now rewrite lookup_insert_ne. Qed.

(** C8. In a run of [crawl_place_tabs] that returns a record, take the
  links its tab discovery returned.  The navigations of the run are the
  home URL and then one URL for each of the menu, info and news labels
  that has a link; a label without a link (absent or empty) has no URL
  among them and its text in the record is the empty string.  For such a
  label the loop body records the empty text and does nothing else. *)
Theorem crawl_place_tabs_absent_tabs
  (map_url : pystr) (timeout_ms : Z) (headless : bool)
  (s s' : St E) (r : CrawledPlaceData) :
crawl_place_tabs E map_url timeout_ms headless s = (s', Ok r) ->
exists frame s1 s2 links,
  goto_urls (trace s1) = goto_urls (trace s) ++ [source_url r]
  /\ _extract_tab_links E frame s1 = (s2, Ok links)
  /\ goto_urls (trace s')
     = goto_urls (trace s) ++ source_url r :: tab_urls E links
  /\ (is_blank links (u "메뉴") = true ->
      menu_text r = [] /\ tab_url E links (u "메뉴") = None)
  /\ (is_blank links (u "정보") = true ->
      info_text r = [] /\ tab_url E links (u "정보") = None)
  /\ (is_blank links (u "소식") = true ->
      news_text r = [] /\ tab_url E links (u "소식") = None)
  /\ (forall label key result st,
        str_eqb key (u "home") = false ->
        is_blank links label = true ->
        crawl_tab E links (label, key) result st
        = (st, Ok (<[key := []]> result))).
Proof.
intros Hrun.
apply crawl_place_tabs_spec in Hrun
  as (s0 & sa & sb & sc & result' & H0 & Ha & Hsrc & Hsb & Hs & Hsc
      & Hhome & Hmenu & Hinfo & Hnews).
apply crawl_session_spec in Hs
  as (frame & s1 & s2 & links & th & tm & ti & tn & Hg1 & Hlinks & ->
      & Hnav & Hbm & Hbi & Hbn).
apply prepare_event_loop_trace in H0 as [H0 _].
apply quiet_extract_place_id in Ha.
assert (goto_urls (trace sb) = goto_urls (trace s)) as Hstart
  by now rewrite Hsb, Ha, H0.
assert (forall label, is_blank links label = true ->
          tab_url E links label = None) as Hnone.
{ intros label Hb. unfold tab_url. unfold is_blank in Hb.
  destruct (links !! label) as [[|c href]|]; [reflexivity| |reflexivity].
  discriminate. }
exists frame, s1, s2, links.
split; [now rewrite Hg1, Hstart|].
split; [exact Hlinks|].
split; [now rewrite Hsc, Hnav, Hstart|].
split; [|split; [|split]].
- intros Hb. split; [|now apply Hnone].
  rewrite Hmenu, !getitem_insert_ne, getitem_insert_eq by key_ne.
  now apply Hbm.
- intros Hb. split; [|now apply Hnone].
  rewrite Hinfo, getitem_insert_ne, getitem_insert_eq by key_ne.
  now apply Hbi.
- intros Hb. split; [|now apply Hnone].
  rewrite Hnews, getitem_insert_eq. now apply Hbn.
- intros label key result st. apply crawl_tab_absent.
Qed.

(** C10. A record returned by [crawl_place_tabs] has as [place_id] the
  value the call of [extract_place_id] on the input URL returned in that
  run, and as [source_url] the canonical home URL built from that
  identifier alone, whatever the shape of the input URL; the link line
  the merger writes to [location_info] ends with this canonical URL. *)
Theorem crawl_place_tabs_canonical_source
  (map_url : pystr) (timeout_ms : Z) (headless : bool)
  (s s' : St E) (r : CrawledPlaceData) :
crawl_place_tabs E map_url timeout_ms headless s = (s', Ok r) ->
(exists s1,
   extract_place_id E map_url (fst (prepare_event_loop E s))
   = (s1, Ok (place_id r)))
/\ source_url r
   = u "https://map.naver.com/p/entry/place/" ++ place_id r
     ++ u "?placePath=%2Fhome"
/\ (forall d : gmap pystr pystr,
      exists before,
        merge_blog_input_with_crawl d r !! u "location_info"
        = Some (before ++ u "지도 링크: "
                ++ u "https://map.naver.com/p/entry/place/" ++ place_id r
                ++ u "?placePath=%2Fhome")).
Proof.
intros Hrun.
apply crawl_place_tabs_spec in Hrun
  as (s0 & sa & sb & sc & result' & H0 & Ha & Hsrc & _).
rewrite map_entry_home_of_eq in Hsrc.
split; [|split].
- exists sa. rewrite H0. exact Ha.
- exact Hsrc.
- intros d. rewrite merge_location_info.
  destruct (appended_location_suffix r (d !! u "location_info"))
    as [before ->].
  exists before. rewrite Hsrc. reflexivity.
Qed.
End OrchestratorTheorems.

Lemma demo_extract_tab_links frame (s : St demo_env) :
  _extract_tab_links demo_env frame s
  = (mk_St (world s) (trace s ++ [EvEvaluate frame]),
     Ok (tab_links_of demo_document)).
Proof. reflexivity. Qed.

Lemma crawl_place_tabs_absent_tabs_witness :
  exists s' r,
    crawl_place_tabs demo_env sample_url 30000 true demo_start = (s', Ok r)
    /\ news_text r = [] /\ info_text r = []
    /\ goto_urls (trace s') = [map_entry_home_of (u "123"); demo_menu_url].
Proof.
  destruct (crawl_place_tabs demo_env sample_url 30000 true demo_start)
    as [s' [r|e]] eqn:Hrun; [|vm_compute in Hrun; discriminate Hrun].
  exists s', r. split; [reflexivity|].
  destruct (crawl_place_tabs_absent_tabs demo_env _ _ _ _ _ _ Hrun)
    as (frame & s1 & s2 & links & _ & Hlinks & _ & _ & Hinfo & Hnews & _).
  assert (links = tab_links_of demo_document) as ->.
  { rewrite demo_extract_tab_links in Hlinks. now injection Hlinks as _ <-. }
  split; [apply Hnews; vm_compute; reflexivity|].
  split; [apply Hinfo; vm_compute; reflexivity|].
  vm_compute in Hrun. injection Hrun as <- _. vm_compute. reflexivity.
Defined.

Lemma crawl_place_tabs_canonical_source_witness :
  exists s' r,
    crawl_place_tabs demo_env sample_url 30000 true demo_start = (s', Ok r)
    /\ source_url r
       = u "https://map.naver.com/p/entry/place/" ++ place_id r
         ++ u "?placePath=%2Fhome".
Proof.
  destruct (crawl_place_tabs demo_env sample_url 30000 true demo_start)
    as [s' [r|e]] eqn:Hrun; [|vm_compute in Hrun; discriminate Hrun].
  exists s', r. split; [reflexivity|].
  exact (proj1 (proj2 (crawl_place_tabs_canonical_source demo_env _ _ _ _ _ _
                         Hrun))).
Defined.

(** * Further properties *)

(** ** Strings *)

Lemma startswith_spec p s : startswith p s = true <-> exists r, s = p ++ r.
Proof.
  revert s. induction p as [|a p IH]; intros s; simpl.
  - split; [intros _; now exists s | reflexivity].
  - destruct s as [|b s].
    + split; [discriminate | intros [r Hr]; discriminate].
    + rewrite andb_true_iff, N.eqb_eq, IH. split.
      * intros [-> [r ->]]. now exists r.
      * intros [r Hr]. injection Hr as -> ->.
        split; [reflexivity | now exists r].
Qed.

Lemma contains_spec p s :
  contains p s = true <-> exists l r, s = l ++ p ++ r.
Proof.
  induction s as [|c s IH].
  - cbn [contains]. rewrite orb_false_r, startswith_spec. split.
    + intros [r Hr]. now exists [], r.
    + intros [l [r Hr]]. destruct l; [now exists r | discriminate].
  - cbn [contains]. rewrite orb_true_iff, startswith_spec, IH. split.
    + intros [[r Hr]|[l [r ->]]]; [now exists [], r | now exists (c :: l), r].
    + intros [[|a l] [r Hr]].
      * left. now exists r.
      * right. injection Hr as -> ->. now exists l, r.
Qed.

(** A part of a string without [p] is without [p]. *)
Lemma contains_false_part p a x b :
  contains p (a ++ x ++ b) = false -> contains p x = false.
Proof.
  intros H. destruct (contains p x) eqn:Hx; [|reflexivity].
  apply contains_spec in Hx as [l [r ->]].
  rewrite <- H. symmetry. apply contains_spec.
  exists (a ++ l), (r ++ b). now rewrite <- !app_assoc.
Qed.

Lemma lstrip_with_id ws s :
  (forall c r, s = c :: r -> ws c = false) -> lstrip_with ws s = s.
Proof.
  destruct s as [|c r]; [reflexivity|]. intros H. simpl.
  now rewrite (H c r eq_refl).
Qed.

(** The first character of a stripped string is no white space. *)
Lemma strip_with_head ws s c r :
  strip_with ws s = c :: r -> ws c = false.
Proof.
  unfold strip_with. intros H.
  destruct (lstrip_with_split ws (rev (lstrip_with ws s))) as [sp [Hs _]].
  apply (f_equal (@rev N)) in Hs.
  rewrite rev_involutive, rev_app_distr, H in Hs.
  eapply lstrip_with_head. exact Hs.
Qed.

Lemma strip_with_id ws s :
  (forall c r, s = c :: r -> ws c = false) ->
  (forall c, last s = Some c -> ws c = false) ->
  strip_with ws s = s.
Proof.
  intros Hhead Hlast. unfold strip_with.
  rewrite (lstrip_with_id ws s Hhead), lstrip_with_id.
  - apply rev_involutive.
  - intros c r Hr. apply Hlast. eapply rev_cons_last, Hr.
Qed.

Lemma strip_with_idem ws s :
  strip_with ws (strip_with ws s) = strip_with ws s.
Proof.
  apply strip_with_id.
  - intros c r. apply strip_with_head.
  - intros c. apply strip_with_last.
Qed.

(** ** [_normalize_text] *)

Lemma emit_newlines_cases k :
  emit_newlines k = [] \/ emit_newlines k = [LF] \/ emit_newlines k = [LF; LF].
Proof.
  unfold emit_newlines.
  destruct k as [|[|[|k]]]; simpl; auto.
Qed.

Lemma Forall_sub_newlines (P : N -> Prop) s k :
  P LF -> Forall P s -> Forall P (sub_newlines s k).
Proof.
  intros HLF Hs. revert k.
  assert (forall k, Forall P (emit_newlines k)) as Hemit.
  { intros k. destruct (emit_newlines_cases k) as [-> | [-> | ->]];
      repeat constructor; assumption. }
  induction Hs as [|c s Hc _ IH]; intros k; simpl; [apply Hemit|].
  destruct (c =? LF); [apply IH|].
  apply Forall_app. split; [apply Hemit|]. constructor; [assumption|apply IH].
Qed.

Lemma no_triple_cons c s : (c =? LF) = false -> no_triple s -> no_triple (c :: s).
Proof.
  unfold no_triple. intros Hc Hs. cbn [contains startswith].
  rewrite N.eqb_sym in Hc. unfold LF in *. now rewrite Hc, Hs.
Qed.

Lemma no_triple_after_newlines e t :
  e = [] \/ e = [LF] \/ e = [LF; LF] ->
  no_triple t ->
  (forall c r, t = c :: r -> (c =? LF) = false) ->
  no_triple (e ++ t).
Proof.
  intros He Ht Hhead.
  assert (startswith [LF] t = false) as H1.
  { destruct t as [|c r]; [reflexivity|]. cbn [startswith].
    rewrite N.eqb_sym, (Hhead c r eq_refl). reflexivity. }
  assert (startswith [LF; LF] t = false) as H2.
  { destruct t as [|c r]; [reflexivity|]. cbn [startswith].
    rewrite N.eqb_sym, (Hhead c r eq_refl). reflexivity. }
  unfold no_triple in *.
  destruct He as [-> | [-> | ->]]; [exact Ht| |].
  - change ([LF] ++ t) with (LF :: t). cbn [contains].
    change (startswith [LF; LF; LF] (LF :: t)) with (startswith [LF; LF] t).
    now rewrite H2, Ht.
  - change ([LF; LF] ++ t) with (LF :: LF :: t). cbn [contains].
    change (startswith [LF; LF; LF] (LF :: LF :: t)) with (startswith [LF] t).
    change (startswith [LF; LF; LF] (LF :: t)) with (startswith [LF; LF] t).
    now rewrite H1, H2, Ht.
Qed.

(** The output of the substitution: at most two line feeds, then nothing
    or a part that starts with another character and has no three line
    feeds in a row. *)
Lemma sub_newlines_shape s k :
  exists e t,
    sub_newlines s k = e ++ t
    /\ (e = [] \/ e = [LF] \/ e = [LF; LF])
    /\ no_triple t
    /\ (forall c r, t = c :: r -> (c =? LF) = false).
Proof.
  revert k. induction s as [|c s IH]; intros k; simpl.
  - exists (emit_newlines k), []. rewrite app_nil_r.
    repeat split; [apply emit_newlines_cases | discriminate].
  - destruct (c =? LF) eqn:Hc; [apply IH|].
    exists (emit_newlines k), (c :: sub_newlines s O).
    split; [reflexivity|]. split; [apply emit_newlines_cases|]. split.
    + apply no_triple_cons; [assumption|].
      destruct (IH O) as (e & t & -> & He & Ht & Hh).
      now apply no_triple_after_newlines.
    + now intros c' r [= <- _].
Qed.

Lemma sub_newlines_no_triple s k : no_triple (sub_newlines s k).
Proof.
  destruct (sub_newlines_shape s k) as (e & t & -> & He & Ht & Hh).
  now apply no_triple_after_newlines.
Qed.

Lemma repeat_LF_shift k s : repeat LF k ++ LF :: s = repeat LF (S k) ++ s.
Proof. induction k as [|k IH]; simpl; [reflexivity|now rewrite IH]. Qed.

(** Where no three line feeds stand in a row the substitution changes
    nothing. *)
Lemma sub_newlines_id s k :
  (k <= 2)%nat -> no_triple (repeat LF k ++ s) ->
  sub_newlines s k = repeat LF k ++ s.
Proof.
  revert k. induction s as [|c s IH]; intros k Hk Hno; simpl.
  - rewrite app_nil_r. unfold emit_newlines.
    destruct (Nat.leb_spec 3 k); [lia|reflexivity].
  - destruct (N.eqb_spec c LF) as [->|Hc].
    + rewrite repeat_LF_shift in Hno |- *.
      apply IH; [|assumption].
      destruct k as [|[|[|k]]]; try lia.
      exfalso. unfold no_triple in Hno. simpl in Hno. discriminate.
    + rewrite (IH O); [|lia|].
      * unfold emit_newlines.
        destruct (Nat.leb_spec 3 k); [lia|reflexivity].
      * simpl. apply (contains_false_part _ (repeat LF k ++ [c]) s []).
        now rewrite app_nil_r, <- app_assoc.
Qed.

Lemma normalize_text_facts (text : pystr) :
  Forall (fun c => c <> CR) (_normalize_text text)
  /\ contains [LF; LF; LF] (_normalize_text text) = false
  /\ (forall c r, _normalize_text text = c :: r -> is_space c = false)
  /\ (forall c, last (_normalize_text text) = Some c -> is_space c = false).
Proof.
  unfold _normalize_text. cbv zeta.
  set (replaced := map (fun c => if c =? CR then LF else c) text).
  destruct (strip_with_split is_space (sub_newlines replaced O))
    as (a & b & Hsplit & _ & _).
  fold (strip (sub_newlines replaced O)) in Hsplit.
  split; [|split; [|split]].
  - assert (Forall (fun c => c <> CR) (sub_newlines replaced O)) as Hall.
    { apply Forall_sub_newlines; [discriminate|].
      subst replaced. apply Forall_map, Forall_forall. intros c _.
      destruct (N.eqb_spec c CR); [discriminate|assumption]. }
    rewrite Hsplit in Hall.
    apply Forall_app in Hall as [_ Hall]. now apply Forall_app in Hall as [Hall _].
  - apply (contains_false_part _ a _ b). rewrite <- Hsplit.
    apply sub_newlines_no_triple.
  - intros c r. apply strip_with_head.
  - intros c. apply strip_with_last.
Qed.

(** X1. The normalized text holds no carriage return and no three line
    feeds in a row, and neither starts nor ends with white space. *)
Theorem normalize_text_shape (text : pystr) :
  Forall (fun c => c <> CR) (_normalize_text text)
  /\ contains [LF; LF; LF] (_normalize_text text) = false
  /\ (forall c r, _normalize_text text = c :: r -> is_space c = false)
  /\ (forall c, last (_normalize_text text) = Some c -> is_space c = false).
Proof. exact (normalize_text_facts text). Qed.

Lemma normalize_text_shape_witness : is_space 97 = false.
Proof.
  apply (proj1 (proj2 (proj2 (normalize_text_shape (u " a  ")))) 97 []).
  vm_compute. reflexivity.
Defined.

(** X2. Normalizing a normalized text changes nothing. *)
Theorem normalize_text_idempotent (text : pystr) :
  _normalize_text (_normalize_text text) = _normalize_text text.
Proof.
  destruct (normalize_text_facts text) as (Hcr & Hno & _ & _).
  set (y := _normalize_text text) in *.
  unfold _normalize_text at 1. cbv zeta.
  assert (map (fun c => if c =? CR then LF else c) y = y) as ->.
  { clear Hno. induction Hcr as [|c l Hc _ IH]; simpl; [reflexivity|].
    destruct (N.eqb_spec c CR); [contradiction|now rewrite IH]. }
  rewrite (sub_newlines_id y O); [|lia|exact Hno].
  simpl. subst y. unfold _normalize_text. cbv zeta. apply strip_with_idem.
Qed.

(** ** [_count_chars] *)

Lemma filter_nil_Forall (f : N -> bool) l :
  List.filter f l = [] <-> Forall (fun c => f c = false) l.
Proof.
  induction l as [|c l IH]; simpl.
  - split; constructor.
  - destruct (f c) eqn:Hc.
    + split; [discriminate|]. intros H. inversion H; congruence.
    + rewrite IH. split; [now constructor | now inversion 1].
Qed.

(** X3. The count without white space is the length less the number of
    white-space characters, so never more than the length; both counts add
    up over a concatenation; the count without white space is zero exactly
    for a blank text. *)
Theorem count_chars_counts (text more : pystr) :
  fst (_count_chars text)
  = (snd (_count_chars text) + length (List.filter is_space text))%nat
  /\ (snd (_count_chars text) <= fst (_count_chars text))%nat
  /\ _count_chars (text ++ more)
     = ((fst (_count_chars text) + fst (_count_chars more))%nat,
        (snd (_count_chars text) + snd (_count_chars more))%nat)
  /\ (snd (_count_chars text) = O <-> strip text = []).
Proof.
  unfold _count_chars. cbn [fst snd].
  pose proof (List.filter_length (fun c => negb (is_space c)) text) as Hlen.
  cbv beta in Hlen.
  assert (List.filter (fun x => negb (negb (is_space x))) text
          = List.filter is_space text) as Heq.
  { apply List.filter_ext. intros c. apply negb_involutive. }
  rewrite Heq in Hlen.
  split; [lia|]. split; [lia|]. split.
  - now rewrite List.filter_app, !length_app.
  - rewrite strip_nil_iff, length_zero_iff_nil, filter_nil_Forall.
    split; intros H; (eapply Forall_impl; [exact H|]); intros c Hc;
      cbv beta in *.
    + now apply negb_false_iff.
    + now rewrite Hc.
Qed.


Lemma count_chars_counts_witness : snd (_count_chars (u "  ")) = O.
Proof.
  apply (proj2 (proj2 (proj2 (proj2 (count_chars_counts (u "  ") []))))).
  vm_compute. reflexivity.
Defined.

(** ** More on the URL resolver *)

Lemma lstrip_with_padding ws a x :
  Forall (fun c => ws c = true) a -> lstrip_with ws (a ++ x) = lstrip_with ws x.
Proof. induction 1 as [|c a Hc _ IH]; simpl; [|rewrite Hc]; auto. Qed.

Lemma lstrip_with_app ws x b :
  lstrip_with ws x <> [] -> lstrip_with ws (x ++ b) = lstrip_with ws x ++ b.
Proof.
  induction x as [|c x IH]; simpl; [contradiction|].
  destruct (ws c); [exact IH | reflexivity].
Qed.

(** White space around a string does not change what [strip] returns. *)
Lemma strip_with_padding ws a x b :
  Forall (fun c => ws c = true) a -> Forall (fun c => ws c = true) b ->
  strip_with ws (a ++ x ++ b) = strip_with ws x.
Proof.
  intros Ha Hb. unfold strip_with. rewrite (lstrip_with_padding ws a) by assumption.
  destruct (lstrip_with ws x) as [|c r] eqn:Hx.
  - apply lstrip_with_nil in Hx.
    rewrite (lstrip_with_all ws (x ++ b)); [reflexivity|].
    apply Forall_app. now split.
  - rewrite lstrip_with_app by (rewrite Hx; discriminate).
    rewrite Hx, rev_app_distr.
    rewrite (lstrip_with_padding ws (rev b)) by now apply Forall_rev.
    reflexivity.
Qed.

Section ResolverMore.
Context (E : Env).

Lemma take_digits_all s :
  Forall (fun c => is_digit (uni_decimal E) c = true)
    (take_digits (uni_decimal E) s).
Proof.
  induction s as [|c s IH]; simpl; [constructor|].
  destruct (is_digit (uni_decimal E) c) eqn:Hc; now constructor.
Qed.

Lemma re_search_some lit s ds :
  re_search_lit_digits (uni_decimal E) lit s = Some ds ->
  ds <> [] /\ Forall (fun c => is_digit (uni_decimal E) c = true) ds.
Proof.
  induction s as [|c s IH]; simpl;
    destruct (match_lit_digits_here (uni_decimal E) lit _) as [ds'|] eqn:Hm;
    try discriminate; try exact IH;
    intros [= <-]; unfold match_lit_digits_here in Hm;
    destruct (strip_prefix lit _) as [rest|]; try discriminate;
    pose proof (take_digits_all rest) as Hall;
    destruct (take_digits (uni_decimal E) rest); try discriminate;
    injection Hm as <-; split; try assumption; discriminate.
Qed.

Lemma search_patterns_some ps raw ds :
  search_patterns E ps raw = Some ds ->
  ds <> [] /\ Forall (fun c => is_digit (uni_decimal E) c = true) ds.
Proof.
  induction ps as [|p ps IH]; simpl; [discriminate|].
  destruct (re_search_lit_digits (uni_decimal E) p raw) as [ds'|] eqn:Hp;
    [|exact IH].
  intros [= <-]. eapply re_search_some, Hp.
Qed.

(** X4. Whatever the URL and whatever the network answers, an identifier
    that [extract_place_id] returns is a non-empty string of digits, and
    the URL it was given is not blank. *)
Theorem extract_place_id_digits_only
    (url pid : pystr) (s s' : St E) :
  extract_place_id E url s = (s', Ok pid) ->
  pid <> []
  /\ Forall (fun c => is_digit (uni_decimal E) c = true) pid
  /\ strip url <> [].
Proof.
  unfold extract_place_id. intros H.
  destruct (strip url) as [|c0 r0] eqn:Hstrip; [discriminate|].
  cbn [truthy negb] in H. cbv zeta in H.
  apply bind_ok in H as (netloc & s1 & _ & H).
  apply bind_ok in H as (raw & s2 & _ & H).
  destruct (search_patterns E patterns raw) as [ds|] eqn:Hs; [|discriminate].
  injection H as _ <-.
  destruct (search_patterns_some _ _ _ Hs) as [Hne Hall].
  repeat split; [assumption..|discriminate].
Qed.

(** X5. [extract_place_id] makes at most one request: either the state
    after the call is the state before it, or the host holds the shortener
    domain and the one event added is the request for the stripped URL. *)
Theorem extract_place_id_requests
    (url : pystr) (s s' : St E) (r : result pystr) :
  extract_place_id E url s = (s', r) ->
  s' = s
  \/ (exists netloc,
        urlparse_netloc E (strip url) = Ok netloc
        /\ contains (u "naver.me") (str_lower E netloc) = true
        /\ trace s' = trace s ++ [EvUrlopen (strip url)]).
Proof.
  unfold extract_place_id. intros H.
  destruct (negb (truthy (strip url))).
  { injection H as <- _. now left. }
  cbv zeta in H. unfold bind at 1 in H. unfold of_result in H.
  destruct (urlparse_netloc E (strip url)) as [netloc|e] eqn:Hnet.
  2:{ injection H as <- _. now left. }
  destruct (contains (u "naver.me") (str_lower E netloc)) eqn:Hhost in H.
  - right. exists netloc. split; [reflexivity|]. split; [exact Hhost|].
    unfold bind in H.
    destruct (perform _ _ s) as [s1 [raw|e]] eqn:Hp;
      apply perform_trace in Hp.
    + destruct (search_patterns E patterns raw);
        injection H as <- _; exact Hp.
    + injection H as <- _. exact Hp.
  - left. unfold bind, ret in H.
    destruct (search_patterns E patterns (strip url));
      now injection H as <- _.
Qed.

(** X6. With a shortener host the patterns are searched in the URL the
    request returns, whatever the input URL holds: when that URL holds the
    pattern number [k] followed by the digit run [ds], no earlier pattern
    of the list matches in it and this is the leftmost match, the result
    is [ds] after exactly one request; when the request fails, its
    exception is the result. *)
Theorem extract_place_id_follows_redirect
    (url netloc : pystr) (s : St E) :
  strip url <> [] ->
  urlparse_netloc E (strip url) = Ok netloc ->
  contains (u "naver.me") (str_lower E netloc) = true ->
  (forall w e,
     urlopen_geturl E (strip url) (world s) = (w, Raise e) ->
     extract_place_id E url s
     = (mk_St w (trace s ++ [EvUrlopen (strip url)]), Raise e))
  /\ (forall w lit pre ds rest k,
        urlopen_geturl E (strip url) (world s)
        = (w, Ok (pre ++ lit ++ ds ++ rest)) ->
        patterns !! k = Some lit ->
        ds <> [] ->
        Forall (fun c => is_digit (uni_decimal E) c = true) ds ->
        (forall c r, rest = c :: r -> is_digit (uni_decimal E) c = false) ->
        (forall j lit' i, (j < k)%nat -> patterns !! j = Some lit' ->
           ~ occurs_at (uni_decimal E) lit' (pre ++ lit ++ ds ++ rest) i) ->
        (forall i, (i < length pre)%nat ->
           ~ occurs_at (uni_decimal E) lit (pre ++ lit ++ ds ++ rest) i) ->
        extract_place_id E url s
        = (mk_St w (trace s ++ [EvUrlopen (strip url)]), Ok ds)).
Proof.
  intros Hne Hnet Hhost.
  assert (forall w r,
            urlopen_geturl E (strip url) (world s) = (w, r) ->
            extract_place_id E url s
            = let s' := mk_St w (trace s ++ [EvUrlopen (strip url)]) in
              match r with
              | Ok raw =>
                  (s', match search_patterns E patterns raw with
                       | Some ds => Ok ds
                       | None => Raise (mk_exn ValueError msg_id_not_found)
                       end)
              | Raise e => (s', Raise e)
              end) as Hrun.
  { intros w r Hreq. unfold extract_place_id.
    assert (truthy (strip url) = true) as ->
      by (destruct (strip url); [contradiction | reflexivity]).
    cbv zeta. change (negb true) with false. cbv iota.
    unfold bind, of_result, perform. cbv beta. rewrite Hnet. cbv beta iota.
    rewrite Hhost. cbv beta iota. rewrite Hreq.
    destruct r as [raw|e]; [|reflexivity].
    now destruct (search_patterns E patterns raw). }
  split.
  - intros w e Hreq. now rewrite (Hrun _ _ Hreq).
  - intros w lit pre ds rest k Hreq Hk Hds Hall Hrest Hbefore Hfirst.
    rewrite (Hrun _ _ Hreq). cbv zeta.
    rewrite (search_patterns_pick E patterns _ k lit ds); try assumption.
    + reflexivity.
    + intros j lit' Hj Hl. apply re_search_none.
      intros i. now apply (Hbefore j).
    + now apply re_search_first.
Qed.

(** X7. White space before and after the URL never changes the outcome
    of [extract_place_id]. *)
Theorem extract_place_id_ignores_padding
    (before url after : pystr) (s : St E) :
  Forall (fun c => is_space c = true) before ->
  Forall (fun c => is_space c = true) after ->
  extract_place_id E (before ++ url ++ after) s = extract_place_id E url s.
Proof.
  intros Hb Ha. unfold extract_place_id.
  assert (strip (before ++ url ++ after) = strip url) as ->
    by now apply strip_with_padding.
  reflexivity.
Qed.
End ResolverMore.

Lemma extract_place_id_digits_only_witness :
  u "123" <> []
  /\ Forall (fun c => is_digit (uni_decimal demo_env) c = true) (u "123")
  /\ strip sample_url <> [].
Proof.
  apply (extract_place_id_digits_only demo_env sample_url (u "123")
           demo_start demo_start).
  vm_compute. reflexivity.
Defined.

Lemma extract_place_id_requests_witness :
  (mk_St (world demo_start) (trace demo_start ++ [EvUrlopen (u "https://naver.me/abc")])
   = demo_start)
  \/ (exists netloc,
        urlparse_netloc demo_env (strip (u "https://naver.me/abc")) = Ok netloc
        /\ contains (u "naver.me") (str_lower demo_env netloc) = true
        /\ trace (mk_St (world demo_start)
                    (trace demo_start ++ [EvUrlopen (u "https://naver.me/abc")]))
           = trace demo_start ++ [EvUrlopen (strip (u "https://naver.me/abc"))]).
Proof.
  apply (extract_place_id_requests demo_env (u "https://naver.me/abc")
           demo_start _ (Ok (u "1234567"))).
  vm_compute. reflexivity.
Defined.

Lemma extract_place_id_follows_redirect_witness :
  extract_place_id demo_env (u "https://naver.me/abc") demo_start
  = (mk_St (world demo_start)
       (trace demo_start ++ [EvUrlopen (strip (u "https://naver.me/abc"))]),
     Ok (u "1234567")).
Proof.
  refine (proj2 (extract_place_id_follows_redirect demo_env
                   (u "https://naver.me/abc") (u "naver.me") demo_start _ _ _)
            (world demo_start) (u "/entry/place/")
            (u "https://map.naver.com/p") (u "1234567")
            (u "?c=15.00,0,0,0,dh") O _ _ _ _ _ _ _).
  - intros H. vm_compute in H. discriminate H.
  - vm_compute. reflexivity.
  - vm_compute. reflexivity.
  - vm_compute. reflexivity.
  - vm_compute. reflexivity.
  - intros H. vm_compute in H. discriminate H.
  - repeat constructor.
  - intros c r H. vm_compute in H. injection H as <- _. reflexivity.
  - intros j lit' i Hj. lia.
  - apply no_occurrence_before. vm_compute. reflexivity.
Defined.

Lemma extract_place_id_ignores_padding_witness :
  extract_place_id demo_env
    (u "  " ++ u "https://example.com/" ++ [LF]) demo_start
  = extract_place_id demo_env (u "https://example.com/") demo_start.
Proof.
  apply (extract_place_id_ignores_padding demo_env (u "  ")
           (u "https://example.com/") [LF] demo_start);
    repeat constructor.
Defined.


(** ** More on the crawl orchestrator *)

Section OrchestratorMore.
Context (E : Env).

(** [crawl_place_tabs] with playwright at hand, stage by stage. *)
Lemma crawl_place_tabs_stages map_url timeout_ms headless s :
  playwright_available E = true ->
  crawl_place_tabs E map_url timeout_ms headless s
  = match extract_place_id E map_url (fst (prepare_event_loop E s)) with
    | (s1, Raise e) => (s1, Raise e)
    | (s1, Ok pid) =>
        match translate_not_implemented E
                (with_playwright E
                   (crawl_session E (map_entry_home_of pid) timeout_ms
                      headless empty_result)) s1 with
        | (s2, Raise e) => (s2, Raise e)
        | (s2, Ok result) =>
            (s2, Ok {| place_id := pid;
                       source_url := map_entry_home_of pid;
                       home_text := getitem result (u "home");
                       menu_text := getitem result (u "menu");
                       info_text := getitem result (u "info");
                       news_text := getitem result (u "news") |})
        end
    end.
Proof.
  intros Hpw. unfold crawl_place_tabs. rewrite Hpw.
  change (negb true) with false. cbv iota. unfold bind, ret.
  destruct (prepare_event_loop E s) as [s0 r0] eqn:H0.
  destruct (prepare_event_loop_trace E _ _ _ H0) as [_ ->].
  cbn [fst].
  destruct (extract_place_id E map_url s0) as [s1 [pid|e]]; [|reflexivity].
  cbv zeta. fold empty_result.
  now destruct (translate_not_implemented E _ s1) as [s2 [res|e]].
Qed.

(** X8. [crawl_place_tabs] fails before any browser work in two cases:
    without playwright it raises [RuntimeError] and touches nothing,
    whatever the URL; with playwright, an exception of [extract_place_id]
    is raised unchanged, in the state the resolver left. *)
Theorem crawl_place_tabs_fails_early
    (map_url : pystr) (timeout_ms : Z) (headless : bool) (s : St E) :
  (playwright_available E = false ->
   crawl_place_tabs E map_url timeout_ms headless s
   = (s, Raise (mk_exn RuntimeError msg_no_playwright)))
  /\ (forall s1 e,
        playwright_available E = true ->
        extract_place_id E map_url (fst (prepare_event_loop E s))
        = (s1, Raise e) ->
        crawl_place_tabs E map_url timeout_ms headless s = (s1, Raise e)).
Proof.
  split.
  - intros Hpw. unfold crawl_place_tabs. now rewrite Hpw.
  - intros s1 e Hpw Hx. now rewrite crawl_place_tabs_stages, Hx.
Qed.

(** X9. An exception that leaves the browser part of [crawl_place_tabs] is
    never a [NotImplementedError]: that class is replaced by
    [RuntimeError] with the launch message. *)
Theorem crawl_place_tabs_no_not_implemented
    (map_url pid : pystr) (timeout_ms : Z) (headless : bool)
    (s s1 s' : St E) (e : exn) :
  extract_place_id E map_url (fst (prepare_event_loop E s)) = (s1, Ok pid) ->
  crawl_place_tabs E map_url timeout_ms headless s = (s', Raise e) ->
  exn_cls e <> NotImplementedError.
Proof.
  intros Hx.
  destruct (playwright_available E) eqn:Hpw.
  2:{ unfold crawl_place_tabs. rewrite Hpw. intros [= _ <-]. discriminate. }
  rewrite crawl_place_tabs_stages, Hx by assumption.
  unfold translate_not_implemented, try_except.
  destruct (with_playwright E _ s1) as [sx [res|e0]]; [discriminate|].
  destruct (exn_cls e0) eqn:Hc; unfold raise; intros [= _ <-];
    try (rewrite Hc); discriminate.
Qed.

Lemma find_none_Forall {A} (f : A -> bool) l :
  Forall (fun x => f x = false) l -> List.find f l = None.
Proof. induction 1 as [|x l Hx _ IH]; simpl; [|rewrite Hx]; auto. Qed.

(** X10. When the page shows no frame of the place origin after the home
    navigation, [crawl_place_tabs] raises [RuntimeError] with the frame
    message: no script is evaluated, [context.close()] is not reached, and
    the [with] block is left. *)
Theorem crawl_place_tabs_no_frame
    (map_url pid : pystr) (timeout_ms : Z) (headless : bool)
    (s sa : St E) (w0 w1 w2 w3 : World E) :
  playwright_available E = true ->
  extract_place_id E map_url (fst (prepare_event_loop E s)) = (sa, Ok pid) ->
  playwright_enter E (world sa) = (w0, Ok tt) ->
  session_open E headless timeout_ms w0 = (w1, Ok tt) ->
  page_goto E (map_entry_home_of pid) w1 = (w2, Ok tt) ->
  page_wait_for_timeout E 3500 w2 = (w3, Ok tt) ->
  Forall (fun f => contains (u "pcmap.place.naver.com") (frame_url f) = false)
    (page_frames E w3) ->
  crawl_place_tabs E map_url timeout_ms headless s
  = (mk_St (playwright_exit E w3)
       (trace sa ++ [EvOpen headless timeout_ms;
                     EvGoto (map_entry_home_of pid); EvWait 3500]),
     Raise (mk_exn RuntimeError msg_no_frame)).
Proof.
  intros Hpw Hx Henter Hopen Hgoto Hwait Hframes.
  rewrite crawl_place_tabs_stages, Hx by assumption.
  unfold translate_not_implemented, try_except, with_playwright.
  rewrite Henter. unfold empty_result.
  assert (crawl_session E (map_entry_home_of pid) timeout_ms headless
            (<[u "news":=[]]> (<[u "info":=[]]> (<[u "menu":=[]]>
               (<[u "home":=[]]> ∅))))
            (mk_St w0 (trace sa))
          = (mk_St w3 (trace sa ++ [EvOpen headless timeout_ms;
                                    EvGoto (map_entry_home_of pid);
                                    EvWait 3500]),
             Raise (mk_exn RuntimeError msg_no_frame))) as ->.
  { unfold crawl_session, goto, wait, _get_place_frame, read, bind, perform,
      raise.
    cbn [world trace]. rewrite Hopen. cbn [world trace].
    rewrite Hgoto. cbn [world trace]. rewrite Hwait. cbn [world trace].
    rewrite (find_none_Forall _ _ Hframes).
    now rewrite <- !app_assoc. }
  reflexivity.
Qed.

Lemma find_some_first {A} (f : A -> bool) l x :
  List.find f l = Some x ->
  exists before after,
    l = before ++ x :: after /\ f x = true
    /\ Forall (fun y => f y = false) before.
Proof.
  induction l as [|y l IH]; simpl; [discriminate|].
  destruct (f y) eqn:Hy.
  - intros [= <-]. exists [], l. repeat split; [assumption|constructor].
  - intros H. destruct (IH H) as (b & a & -> & Hx & Hb).
    exists (y :: b), a. repeat split; [assumption|now constructor].
Qed.

(** In a run of the session that returns, the tab links are read from the
    first frame of the page that shows the place origin. *)
Lemma crawl_session_frame home timeout_ms headless result s s' result' :
  crawl_session E home timeout_ms headless result s = (s', Ok result') ->
  exists frame s1 s2 links before after,
    _extract_tab_links E frame s1 = (s2, Ok links)
    /\ trace s1 = trace s ++ [EvOpen headless timeout_ms; EvGoto home;
                              EvWait 3500]
    /\ page_frames E (world s1) = before ++ frame :: after
    /\ contains (u "pcmap.place.naver.com") (frame_url frame) = true
    /\ Forall (fun f => contains (u "pcmap.place.naver.com") (frame_url f)
                        = false) before.
Proof.
  unfold crawl_session. intros H.
  apply bind_ok in H as ([] & sa & Ha & H). apply perform_trace in Ha.
  apply bind_ok in H as ([] & sb & Hb & H). apply perform_trace in Hb.
  apply bind_ok in H as ([] & sc & Hc & H). apply perform_trace in Hc.
  apply bind_ok in H as (found & sd & Hd & H).
  unfold _get_place_frame, read in Hd. injection Hd as <- Hfound.
  destruct found as [frame|]; [|discriminate].
  apply bind_ok in H as (links & se & He & _).
  apply find_some_first in Hfound as (before & after & Hfr & Hf & Hbefore).
  exists frame, sc, se, links, before, after.
  repeat split; try assumption.
  now rewrite Hc, Hb, Ha, <- !app_assoc.
Qed.

(** X11. In a run of [crawl_place_tabs] that returns a record, the tab
    links (and the home text) are read from a frame of the page whose URL
    holds the place origin, the first such frame in the page's list after
    the home navigation; the main frame is never used for the home tab. *)
Theorem crawl_place_tabs_home_frame
    (map_url : pystr) (timeout_ms : Z) (headless : bool)
    (s s' : St E) (r : CrawledPlaceData) :
  crawl_place_tabs E map_url timeout_ms headless s = (s', Ok r) ->
  exists frame s1 s2 links before after,
    _extract_tab_links E frame s1 = (s2, Ok links)
    /\ goto_urls (trace s1) = goto_urls (trace s) ++ [source_url r]
    /\ page_frames E (world s1) = before ++ frame :: after
    /\ contains (u "pcmap.place.naver.com") (frame_url frame) = true
    /\ Forall (fun f => contains (u "pcmap.place.naver.com") (frame_url f)
                        = false) before.
Proof.
  intros Hrun.
  apply crawl_place_tabs_spec in Hrun
    as (s0 & sa & sb & sc & result' & H0 & Ha & Hsrc & Hsb & Hs & _).
  apply crawl_session_frame in Hs
    as (frame & s1 & s2 & links & before & after & Hl & Ht & Hfr & Hf & Hb).
  apply prepare_event_loop_trace in H0 as [H0 _].
  apply quiet_extract_place_id in Ha.
  exists frame, s1, s2, links, before, after.
  repeat split; try assumption.
  rewrite Ht, goto_urls_app, Hsb, Ha, H0. reflexivity.
Qed.

(** One call of [_expand_business_hours] never raises and clicks at most
    once. *)
Lemma expand_business_hours_events frame s s' r :
  _expand_business_hours E frame s = (s', r) ->
  exists b evs,
    r = Ok b /\ trace s' = trace s ++ evs /\ (click_count evs <= 1)%nat.
Proof.
  unfold _expand_business_hours, try_except, expand_attempt, bind, perform,
    ret.
  destruct (frame_scroll_nudge E frame (world s)) as [w1 [[]|e1]];
    cbn [world trace].
  2:{ intros [= <- <-]. exists false, [EvEvaluate frame].
      repeat split. unfold click_count; unfold click_count; simpl; lia. }
  destruct (frame_document E frame w1) as [w2 [d|e2]]; cbn [world trace].
  2:{ intros [= <- <-]. exists false, [EvEvaluate frame; EvEvaluate frame].
      repeat split; [now rewrite <- app_assoc | unfold click_count; simpl; lia]. }
  destruct (find_expand_target d) as [target|];
    cbv beta iota; cbn [world trace].
  2:{ intros [= <- <-]. exists false, [EvEvaluate frame; EvEvaluate frame].
      repeat split; [now rewrite <- app_assoc | unfold click_count; simpl; lia]. }
  destruct (element_click E frame target w2) as [w3 [[]|e3]];
    cbn [world trace]; intros [= <- <-];
    [exists true | exists false];
    exists [EvEvaluate frame; EvEvaluate frame; EvClick frame target];
    (repeat split; [now rewrite <- !app_assoc | unfold click_count; simpl; lia]).
Qed.

Lemma click_count_app t1 t2 :
  click_count (t1 ++ t2) = (click_count t1 + click_count t2)%nat.
Proof. unfold click_count. now rewrite List.filter_app, length_app. Qed.

Lemma click_count_wait ms : click_count [EvWait ms] = O.
Proof. reflexivity. Qed.

(** X12. The retry loop makes at most [n] attempts: it clicks at most [n]
    times; and it raises only what a wait raises, never an exception of an
    attempt. *)
Theorem expand_loop_bounded
    (n : nat) (frame : Frame) (pause : Z) (s s' : St E) (r : result unit) :
  expand_loop E n frame pause s = (s', r) ->
  (exists evs, trace s' = trace s ++ evs /\ (click_count evs <= n)%nat)
  /\ (forall e, r = Raise e ->
        exists ms w w', page_wait_for_timeout E ms w = (w', Raise e)).
Proof.
  revert s. induction n as [|n IH]; intros s; simpl.
  - intros [= <- <-]. split; [|discriminate].
    exists []. now rewrite app_nil_r.
  - unfold bind at 1.
    destruct (_expand_business_hours E frame s) as [s1 r1] eqn:Hx.
    apply expand_business_hours_events in Hx as (b & evs & -> & Ht & Hc).
    destruct b.
    + unfold wait, perform.
      destruct (page_wait_for_timeout E 700 (world s1)) as [w r0] eqn:Hw.
      intros [= <- <-]. cbn [trace]. split.
      * exists (evs ++ [EvWait 700]). rewrite Ht, <- app_assoc.
        split; [reflexivity|]. rewrite click_count_app, click_count_wait. lia.
      * intros e ->. now exists 700%Z, (world s1), w.
    + unfold bind at 1, wait at 1, perform.
      destruct (page_wait_for_timeout E pause (world s1)) as [w [[]|e0]] eqn:Hw.
      * intros H. apply IH in H as [(evs' & Ht' & Hc') Hraise].
        cbn [trace] in Ht'. split; [|exact Hraise].
        exists (evs ++ [EvWait pause] ++ evs').
        rewrite Ht', Ht, <- !app_assoc. split; [reflexivity|].
        rewrite !click_count_app, click_count_wait. lia.
      * intros [= <- <-]. cbn [trace]. split.
        -- exists (evs ++ [EvWait pause]). rewrite Ht, <- app_assoc.
           split; [reflexivity|]. rewrite click_count_app, click_count_wait. lia.
        -- intros e [= <-]. now exists pause, (world s1), w.
Qed.
End OrchestratorMore.

Lemma crawl_place_tabs_fails_early_witness :
  crawl_place_tabs demo_env (u "   ") 30000 true demo_start
  = (demo_start, Raise (mk_exn ValueError msg_url_empty)).
Proof.
  apply (proj2 (crawl_place_tabs_fails_early demo_env (u "   ") 30000 true
                  demo_start)).
  - reflexivity.
  - vm_compute. reflexivity.
Defined.

Lemma crawl_place_tabs_no_frame_witness :
  crawl_place_tabs noframe_env sample_url 30000 true noframe_start
  = (mk_St (playwright_exit noframe_env (map_entry_home_of (u "123")))
       (trace noframe_start ++ [EvOpen true 30000;
                                EvGoto (map_entry_home_of (u "123"));
                                EvWait 3500]),
     Raise (mk_exn RuntimeError msg_no_frame)).
Proof.
  apply (crawl_place_tabs_no_frame noframe_env sample_url (u "123") 30000 true
           noframe_start noframe_start
           (u "about:blank") (u "about:blank")
           (map_entry_home_of (u "123")) (map_entry_home_of (u "123"))).
  - reflexivity.
  - vm_compute. reflexivity.
  - reflexivity.
  - reflexivity.
  - reflexivity.
  - reflexivity.
  - repeat constructor.
Defined.

Lemma crawl_place_tabs_no_not_implemented_witness :
  exn_cls (mk_exn RuntimeError msg_no_frame) <> NotImplementedError.
Proof.
  apply (crawl_place_tabs_no_not_implemented noframe_env sample_url (u "123")
           30000 true noframe_start noframe_start
           (mk_St (playwright_exit noframe_env (map_entry_home_of (u "123")))
              (trace noframe_start ++ [EvOpen true 30000;
                                       EvGoto (map_entry_home_of (u "123"));
                                       EvWait 3500]))).
  - vm_compute. reflexivity.
  - vm_compute. reflexivity.
Defined.

Lemma crawl_place_tabs_home_frame_witness :
  exists s' r,
    crawl_place_tabs demo_env sample_url 30000 true demo_start = (s', Ok r)
    /\ exists frame,
         contains (u "pcmap.place.naver.com") (frame_url frame) = true.
Proof.
  destruct (crawl_place_tabs demo_env sample_url 30000 true demo_start)
    as [s' [r|e]] eqn:Hrun; [|vm_compute in Hrun; discriminate Hrun].
  exists s', r. split; [reflexivity|].
  destruct (crawl_place_tabs_home_frame demo_env _ _ _ _ _ _ Hrun)
    as (frame & _ & _ & _ & _ & _ & _ & _ & _ & Hf & _).
  now exists frame.
Defined.

Lemma expand_loop_bounded_witness :
  exists evs,
    trace (fst (expand_loop demo_env 4 demo_frame 500 demo_start))
    = trace demo_start ++ evs
    /\ (click_count evs <= 4)%nat.
Proof.
  exact (proj1 (expand_loop_bounded demo_env 4 demo_frame 500 demo_start
                  _ _ (surjective_pairing _))).
Defined.


(** ** The evaluated scripts *)

Lemma str_eqb_eq a b : str_eqb a b = true <-> a = b.
Proof.
  revert b. induction a as [|x a IH]; intros [|y b]; simpl;
    try (split; [discriminate|discriminate]); [tauto|].
  rewrite andb_true_iff, N.eqb_eq, IH. split.
  - now intros [-> ->].
  - intros [= -> ->]. tauto.
Qed.

Lemma tab_links_of_fold (d : Document) :
  tab_links_of d = fold_left (add_tab_link d) (querySelectorAll d sel_tabs) ∅.
Proof. reflexivity. Qed.

Lemma add_tab_links_sound (d : Document) (anchors : list N) (out : gmap pystr pystr)
    (Q : pystr -> pystr -> Prop) :
  (forall label href, out !! label = Some href -> Q label href) ->
  (forall a, In a anchors ->
     anchor_label d a <> [] -> anchor_href d a <> [] ->
     Q (anchor_label d a) (anchor_href d a)) ->
  forall label href,
    fold_left (add_tab_link d) anchors out !! label = Some href ->
    Q label href.
Proof.
  revert out. induction anchors as [|a anchors IH]; intros out Hout Hin;
    simpl; [exact Hout|].
  apply IH; [|intros a' Ha'; apply Hin; now right].
  intros label href. unfold add_tab_link.
  destruct (anchor_label d a) as [|c l] eqn:Hl; [apply Hout|].
  destruct (anchor_href d a) as [|c' h] eqn:Hh; [apply Hout|].
  cbn [truthy negb orb]. destruct (str_eqb (c :: l) (u "__proto__"));
    [apply Hout|].
  destruct (decide (c :: l = label)) as [<-|Hne].
  - rewrite lookup_insert_eq. intros [= <-]. rewrite <- Hl, <- Hh.
    apply Hin; [now left|now rewrite Hl|now rewrite Hh].
  - rewrite lookup_insert_ne by assumption. apply Hout.
Qed.

(** X13. Every link the tab script returns comes from an anchor of the
    tab role: the label is the trimmed text of that anchor and is not
    empty, and the link is its [href] attribute and is not empty.  So for
    discovered links the test [not href] of the loop holds exactly for the
    labels that are missing. *)
Theorem tab_links_never_empty (d : Document) (label href : pystr) :
  tab_links_of d !! label = Some href ->
  (exists a,
     In a (querySelectorAll d sel_tabs)
     /\ label = js_trim (default [] (innerText d a))
     /\ getAttribute d a (u "href") = Some href)
  /\ label <> [] /\ href <> []
  /\ is_blank (tab_links_of d) label = false.
Proof.
  intros H.
  assert ((exists a,
             In a (querySelectorAll d sel_tabs)
             /\ label = anchor_label d a /\ href = anchor_href d a)
          /\ label <> [] /\ href <> []) as [(a & Ha & Hl & Hh) [Hln Hhn]].
  { revert label href H. rewrite tab_links_of_fold.
    apply add_tab_links_sound.
    - intros label href. rewrite lookup_empty. discriminate.
    - intros a Ha Hl Hh. split; [now exists a | now split]. }
  split; [|split; [|split]]; try assumption.
  - exists a. split; [assumption|]. split; [assumption|].
    unfold anchor_href in Hh.
    destruct (getAttribute d a (u "href")); simpl in Hh; congruence.
  - unfold is_blank. rewrite H. now destruct href.
Qed.

Lemma add_tab_links_keep (d : Document) (anchors : list N) (out : gmap pystr pystr) label :
  Forall (fun a => anchor_label d a <> label \/ anchor_href d a = []) anchors ->
  fold_left (add_tab_link d) anchors out !! label = out !! label.
Proof.
  intros H. revert out.
  induction H as [|a anchors Ha _ IH]; intros out; simpl; [reflexivity|].
  rewrite IH. unfold add_tab_link.
  destruct Ha as [Ha|Ha].
  - destruct (_ || _); [reflexivity|].
    destruct (str_eqb _ _); [reflexivity|]. now rewrite lookup_insert_ne.
  - rewrite Ha. cbn [truthy negb]. now rewrite orb_true_r.
Qed.

(** X14. Of several anchors with the same label the last usable one
    decides: when an anchor of the tab role has the trimmed text [label]
    (not empty and not [__proto__]) and a non-empty [href], and every
    later anchor has another trimmed text or no [href] (absent or empty),
    the link recorded for [label] is the [href] of that anchor. *)
Theorem tab_links_last_wins
    (d : Document) (before after : list N) (a : N) (label href : pystr) :
  querySelectorAll d sel_tabs = before ++ a :: after ->
  js_trim (default [] (innerText d a)) = label ->
  getAttribute d a (u "href") = Some href ->
  label <> [] -> href <> [] ->
  label <> u "__proto__" ->
  Forall (fun a' => js_trim (default [] (innerText d a')) <> label
                    \/ default [] (getAttribute d a' (u "href")) = [])
    after ->
  tab_links_of d !! label = Some href.
Proof.
  intros Hq Hl Hh Hln Hhn Hproto Hafter.
  rewrite tab_links_of_fold, Hq, fold_left_app. simpl.
  rewrite add_tab_links_keep by exact Hafter.
  unfold add_tab_link, anchor_label, anchor_href. rewrite Hl, Hh.
  cbn [default from_option id].
  destruct (str_eqb label (u "__proto__")) eqn:Hp.
  { apply str_eqb_eq in Hp. contradiction. }
  destruct label; [contradiction|]. destruct href; [contradiction|].
  cbn [truthy negb orb]. apply lookup_insert_eq.
Qed.

Lemma visible_panel_of_fold (d : Document) :
  visible_panel_of d
  = fold_left
      (fun best sel => fold_left (keep_longer d) (querySelectorAll d sel) best)
      panel_selectors [].
Proof. reflexivity. Qed.

Lemma keep_longer_fold (d : Document) (nodes : list N) (best : pystr) :
  (js_length best <= js_length (fold_left (keep_longer d) nodes best))%nat
  /\ Forall (fun node =>
               (js_length (panel_candidate d node)
                <= js_length (fold_left (keep_longer d) nodes best))%nat) nodes
  /\ (fold_left (keep_longer d) nodes best = best
      \/ exists node, In node nodes
           /\ fold_left (keep_longer d) nodes best = panel_candidate d node).
Proof.
  revert best. induction nodes as [|node nodes IH]; intros best; simpl.
  - repeat split; [lia|constructor|now left].
  - destruct (IH (keep_longer d best node)) as (Hge & Hall & Hfrom).
    assert (js_length best <= js_length (keep_longer d best node)
            /\ js_length (panel_candidate d node)
               <= js_length (keep_longer d best node))%nat as [H1 H2].
    { unfold keep_longer.
      destruct (Nat.ltb_spec (js_length best)
                  (js_length (panel_candidate d node))); lia. }
    split; [lia|]. split; [constructor; [lia|assumption]|].
    destruct Hfrom as [Heq|(n' & Hin & Heq)].
    + rewrite Heq. unfold keep_longer.
      destruct (_ <? _)%nat; [right; exists node; auto | now left].
    + right. exists n'. auto.
Qed.

(** X15. The text the panel script returns is at least as long (in UTF-16
    units) as the trimmed text of every node of every selector of its
    list; and it is the empty string or the trimmed text of one of those
    nodes. *)
Theorem visible_panel_longest (d : Document) :
  (forall sel node,
     In sel panel_selectors -> In node (querySelectorAll d sel) ->
     (js_length (panel_candidate d node) <= js_length (visible_panel_of d))%nat)
  /\ (visible_panel_of d = []
      \/ exists sel node,
           In sel panel_selectors /\ In node (querySelectorAll d sel)
           /\ visible_panel_of d = panel_candidate d node).
Proof.
  rewrite visible_panel_of_fold.
  generalize panel_selectors as sels. intros sels.
  assert (forall best,
            (js_length best
             <= js_length (fold_left (fun best sel =>
                   fold_left (keep_longer d) (querySelectorAll d sel) best)
                   sels best))%nat
            /\ (forall sel node, In sel sels ->
                  In node (querySelectorAll d sel) ->
                  (js_length (panel_candidate d node)
                   <= js_length (fold_left (fun best sel =>
                        fold_left (keep_longer d) (querySelectorAll d sel) best)
                        sels best))%nat)
            /\ (fold_left (fun best sel =>
                  fold_left (keep_longer d) (querySelectorAll d sel) best)
                  sels best = best
                \/ exists sel node, In sel sels
                     /\ In node (querySelectorAll d sel)
                     /\ fold_left (fun best sel =>
                          fold_left (keep_longer d) (querySelectorAll d sel)
                            best) sels best
                        = panel_candidate d node)) as Hgen.
  { induction sels as [|sel sels IH]; intros best; simpl.
    - repeat split; [lia|contradiction|now left].
    - destruct (keep_longer_fold d (querySelectorAll d sel) best)
        as (Hge & Hall & Hfrom).
      destruct (IH (fold_left (keep_longer d) (querySelectorAll d sel) best))
        as (Hge' & Hall' & Hfrom').
      split; [lia|]. split.
      + intros sel' node [<-|Hin] Hnode; [|now apply (Hall' sel' node)].
        rewrite Forall_forall in Hall.
        pose proof (Hall node (proj2 (list_elem_of_In _ _) Hnode)). lia.
      + destruct Hfrom' as [Heq|(sel' & n & Hs & Hn & Heq)].
        * rewrite Heq. destruct Hfrom as [->|(n & Hn & ->)]; [now left|].
          right. exists sel, n. auto.
        * right. exists sel', n. auto. }
  destruct (Hgen []) as (_ & Hall & Hfrom). split; [exact Hall|exact Hfrom].
Qed.

(** ** More on the block filter *)

Lemma contains_app_r p a t : contains p t = true -> contains p (a ++ t) = true.
Proof.
  intros H. apply contains_spec in H as (l & r & ->).
  apply contains_spec. exists (a ++ l), r. now rewrite <- app_assoc.
Qed.

(** X16. An entry the block filter keeps has at least 10 characters; it
    ends with the normalized text of the block, which is not empty, holds
    none of the phrases that drop a block and does not start with the
    menu-image phrase. *)
Theorem clean_block_kept_is_clean
    (ud : N -> bool) (block : Block) (entry : pystr) :
  clean_block ud block = Some entry ->
  let text := _normalize_text (default [] (b_text block)) in
  (10 <= length entry)%nat
  /\ (exists header, entry = header ++ text)
  /\ text <> []
  /\ contains (u "페이지 닫기") text = false
  /\ contains (u "정보 수정 제안하기") text = false
  /\ startswith (u "메뉴판 이미지로 보기") text = false
  /\ (action_hit_count text < 3)%nat.
Proof.
  cbv zeta. rewrite clean_block_spec. cbv zeta.
  set (text := _normalize_text (default [] (b_text block))).
  clearbody text.
  destruct (truthy text) eqn:Ht; [|discriminate]. simpl negb.
  destruct (is_noise text) eqn:Hn; [discriminate|]. simpl.
  intros [= <-].
  unfold is_noise, is_button_block in Hn.
  rewrite !orb_false_iff in Hn.
  destruct Hn as [[[[[_ Hhit] Hclose] Hedit] Hmenu] Hlen].
  apply Nat.ltb_ge in Hlen. apply Nat.leb_gt in Hhit.
  assert (exists header, with_header (clean_title ud (b_title block)) text
                         = header ++ text) as [header Hh].
  { unfold with_header. destruct (_ && _).
    - exists (clean_title ud (b_title block) ++ [LF]).
      now rewrite <- app_assoc.
    - now exists []. }
  repeat split; try assumption.
  - rewrite Hh, length_app. lia.
  - now exists header.
  - intros ->. discriminate Ht.
Qed.


Lemma tab_links_never_empty_witness :
  (exists a,
     In a (querySelectorAll demo_document sel_tabs)
     /\ u "메뉴" = js_trim (default [] (innerText demo_document a))
     /\ getAttribute demo_document a (u "href")
        = Some (u "/restaurant/1234567/menu/list"))
  /\ u "메뉴" <> [] /\ u "/restaurant/1234567/menu/list" <> []
  /\ is_blank (tab_links_of demo_document) (u "메뉴") = false.
Proof.
  apply (tab_links_never_empty demo_document (u "메뉴")
           (u "/restaurant/1234567/menu/list")).
  vm_compute. reflexivity.
Defined.

Lemma tab_links_last_wins_witness :
  tab_links_of demo_document !! u "메뉴"
  = Some (u "/restaurant/1234567/menu/list").
Proof.
  apply (tab_links_last_wins demo_document [1] [] 2).
  - vm_compute. reflexivity.
  - vm_compute. reflexivity.
  - vm_compute. reflexivity.
  - intros H. vm_compute in H. discriminate H.
  - intros H. vm_compute in H. discriminate H.
  - intros H. vm_compute in H. discriminate H.
  - constructor.
Defined.

Lemma visible_panel_longest_witness :
  (js_length (panel_candidate demo_document 12)
   <= js_length (visible_panel_of demo_document))%nat.
Proof.
  apply (proj1 (visible_panel_longest demo_document) (u ".place_section") 12).
  - vm_compute. tauto.
  - vm_compute. tauto.
Defined.

Lemma clean_block_kept_is_clean_witness :
  (10 <= length demo_hours)%nat
  /\ (exists header,
        demo_hours
        = header ++ _normalize_text
                      (default [] (b_text {| b_title := None;
                                             b_text := Some demo_hours |})))
  /\ _normalize_text (default [] (b_text {| b_title := None;
                                            b_text := Some demo_hours |}))
     <> []
  /\ contains (u "페이지 닫기")
       (_normalize_text (default [] (b_text {| b_title := None;
                                               b_text := Some demo_hours |})))
     = false
  /\ contains (u "정보 수정 제안하기")
       (_normalize_text (default [] (b_text {| b_title := None;
                                               b_text := Some demo_hours |})))
     = false
  /\ startswith (u "메뉴판 이미지로 보기")
       (_normalize_text (default [] (b_text {| b_title := None;
                                               b_text := Some demo_hours |})))
     = false
  /\ (action_hit_count
        (_normalize_text (default [] (b_text {| b_title := None;
                                                b_text := Some demo_hours |})))
      < 3)%nat.
Proof.
  apply (clean_block_kept_is_clean (fun _ => false)
           {| b_title := None; b_text := Some demo_hours |} demo_hours).
  vm_compute. reflexivity.
Defined.


(** ** The guesses of the field merger *)

Lemma guess_place_name_lines_skip skipped rest :
  Forall (fun line => skipped_line line = true) skipped ->
  _guess_place_name_lines (skipped ++ rest) = _guess_place_name_lines rest.
Proof.
  induction 1 as [|line skipped Hline _ IH]; [reflexivity|].
  cbn [app _guess_place_name_lines]. cbv zeta.
  unfold skipped_line in Hline.
  destruct (negb (truthy (strip line))); [exact IH|].
  destruct (str_eqb (strip line) boilerplate_line); [exact IH|].
  cbn [orb] in Hline. now rewrite Hline.
Qed.

Lemma guess_place_name_lines_first line rest :
  skipped_line line = false ->
  _guess_place_name_lines (line :: rest) = strip line.
Proof.
  unfold skipped_line. rewrite !orb_false_iff. intros [[H1 H2] H3].
  cbn [_guess_place_name_lines]. cbv zeta. now rewrite H1, H2, H3.
Qed.

Lemma guess_place_name_lines_cases lines :
  (Forall (fun line => skipped_line line = true) lines
   /\ _guess_place_name_lines lines = [])
  \/ (exists skipped line rest,
        lines = skipped ++ line :: rest
        /\ Forall (fun line => skipped_line line = true) skipped
        /\ skipped_line line = false
        /\ _guess_place_name_lines lines = strip line).
Proof.
  induction lines as [|line lines IH].
  - left. split; [constructor|reflexivity].
  - destruct (skipped_line line) eqn:Hline.
    + assert (_guess_place_name_lines (line :: lines)
              = _guess_place_name_lines lines) as Hstep.
      { apply (guess_place_name_lines_skip [line] lines).
        now repeat constructor. }
      destruct IH as [[Hall Hnil]|(sk & l & r & -> & Hsk & Hl & Heq)].
      * left. split; [now constructor|]. now rewrite Hstep.
      * right. exists (line :: sk), l, r.
        repeat split; [now constructor|assumption|]. now rewrite Hstep.
    + right. exists [], line, lines.
      repeat split; [constructor|assumption|].
      now apply guess_place_name_lines_first.
Qed.

(** X17. The place name guessed is empty or a line of the text, stripped;
    it is never the search phrase of the map and never one of the six tab
    words, and it carries no white space at its ends. *)
Theorem guess_place_name_sound (text : pystr) :
  _guess_place_name text = []
  \/ ((exists line, In line (splitlines text)
         /\ _guess_place_name text = strip line)
      /\ _guess_place_name text <> boilerplate_line
      /\ ~ In (_guess_place_name text) tab_words
      /\ strip (_guess_place_name text) = _guess_place_name text).
Proof.
  unfold _guess_place_name.
  destruct (guess_place_name_lines_cases (splitlines text))
    as [[_ ->]|(sk & line & rest & Hlines & _ & Hline & ->)]; [now left|].
  right. unfold skipped_line in Hline.
  rewrite !orb_false_iff in Hline. destruct Hline as [[_ Hb] Ht].
  split; [|split; [|split]].
  - exists line. split; [|reflexivity]. rewrite Hlines.
    apply in_or_app. right. now left.
  - intros Heq. apply str_eqb_eq in Heq. congruence.
  - intros Hin.
    assert (existsb (str_eqb (strip line)) tab_words = true); [|congruence].
    apply existsb_exists. exists (strip line). split; [assumption|].
    now apply str_eqb_eq.
  - apply strip_with_idem.
Qed.

(** X18. The name guessed is the first line that is not passed over
    (blank, the search phrase, or a tab word, after stripping), stripped;
    when every line is passed over the guess is empty. *)
Theorem guess_place_name_first_line (text : pystr) :
  (forall skipped line rest,
     splitlines text = skipped ++ line :: rest ->
     Forall (fun l => skipped_line l = true) skipped ->
     skipped_line line = false ->
     _guess_place_name text = strip line /\ strip line <> [])
  /\ (Forall (fun l => skipped_line l = true) (splitlines text) ->
      _guess_place_name text = []).
Proof.
  unfold _guess_place_name. split.
  - intros skipped line rest -> Hsk Hline.
    rewrite guess_place_name_lines_skip by assumption.
    rewrite guess_place_name_lines_first by assumption.
    split; [reflexivity|]. intros Hnil.
    unfold skipped_line in Hline. now rewrite Hnil in Hline.
  - intros Hall.
    rewrite <- (app_nil_r (splitlines text)).
    now rewrite guess_place_name_lines_skip.
Qed.

Lemma strip_trimmed x : strip x <> [] -> trimmed (strip x).
Proof.
  intros H. split; [assumption|]. split.
  - intros c r. apply strip_with_head.
  - intros c. apply strip_with_last.
Qed.

Lemma trimmed_strip e : trimmed e -> strip e = e.
Proof. intros (_ & Hh & Hl). now apply strip_with_id. Qed.

Lemma join_trimmed sep p rest :
  trimmed p -> Forall trimmed rest -> trimmed (join sep (p :: rest)).
Proof.
  intros Hp Hrest. revert p Hp.
  induction Hrest as [|q rest Hq _ IH]; intros p Hp; [exact Hp|].
  change (join sep (p :: q :: rest)) with (p ++ sep ++ join sep (q :: rest)).
  destruct (IH q Hq) as (Hne & _ & Hlast).
  destruct Hp as (Hpne & Hphead & _).
  split; [|split].
  - destruct p; [contradiction|discriminate].
  - intros c r Hc. destruct p as [|c' p']; [contradiction|].
    injection Hc as <- _. now apply (Hphead c' p').
  - intros c Hc. apply Hlast.
    rewrite app_assoc in Hc.
    destruct (join sep (q :: rest)) as [|x xs] using rev_ind;
      [contradiction|].
    rewrite app_assoc, last_snoc in Hc. now rewrite last_snoc.
Qed.

Lemma stripped_lines_trimmed text : Forall trimmed (stripped_lines text).
Proof.
  unfold stripped_lines. apply Forall_forall. intros e He.
  apply list_elem_of_In, in_map_iff in He as (ln & <- & Hln).
  apply list_elem_of_In, list_elem_of_filter in Hln as [Hln _].
  apply strip_trimmed. intros Hnil. now rewrite Hnil in Hln.
Qed.

Lemma Forall_filter_sub {A} (P : A -> Prop) (f : A -> bool) (l : list A) :
  Forall P l -> Forall P (filter (fun x => f x) l).
Proof.
  intros H. apply Forall_forall. intros x Hx.
  apply list_elem_of_filter in Hx as [_ Hx].
  rewrite Forall_forall in H. now apply H.
Qed.

(** X19. The business hours guessed are the first three (or fewer)
    stripped, non-empty lines that hold one of the two markers, joined by
    " / ": the final [strip] changes nothing, the guess is empty exactly
    when no line holds a marker, and otherwise it has no white space at
    its ends. *)
Theorem guess_business_hours_joined (text : pystr) :
  _guess_business_hours text
  = join (u " / ") (take 3 (hours_candidates text))
  /\ (_guess_business_hours text = [] <-> hours_candidates text = [])
  /\ Forall (fun ln => (contains (u "영업") ln || contains (u "라스트오더") ln)
                       = true /\ trimmed ln)
       (hours_candidates text).
Proof.
  assert (Forall trimmed (hours_candidates text)) as Htr
    by apply Forall_filter_sub, stripped_lines_trimmed.
  assert (_guess_business_hours text
          = join (u " / ") (take 3 (hours_candidates text))) as Heq.
  { unfold _guess_business_hours. cbv zeta. fold (hours_candidates text).
    destruct (hours_candidates text) as [|p rest]; [reflexivity|].
    apply trimmed_strip. change (take 3 (p :: rest)) with (p :: take 2 rest).
    inversion Htr; subst. apply join_trimmed; [assumption|].
    now apply Forall_take. }
  split; [exact Heq|]. split.
  - rewrite Heq. split.
    + destruct (hours_candidates text) as [|p rest]; [reflexivity|].
      intros Hnil. exfalso.
      change (take 3 (p :: rest)) with (p :: take 2 rest) in Hnil.
      inversion Htr; subst.
      destruct (join_trimmed (u " / ") p (take 2 rest)) as (Hne & _);
        [assumption|now apply Forall_take|contradiction].
    + now intros ->.
  - apply Forall_forall. intros ln Hln. split.
    + unfold hours_candidates in Hln.
      apply list_elem_of_filter in Hln as [Hln _].
      now apply Is_true_true in Hln.
    + rewrite Forall_forall in Htr. now apply Htr.
Qed.


Lemma guess_business_hours_joined_witness :
  _guess_business_hours (u "abc") = [].
Proof.
  apply (proj2 (proj1 (proj2 (guess_business_hours_joined (u "abc"))))).
  vm_compute. reflexivity.
Defined.

Lemma guess_place_name_first_line_witness :
  _guess_place_name (home_text demo_crawled) = strip (u "한강식당")
  /\ strip (u "한강식당") <> [].
Proof.
  apply (proj1 (guess_place_name_first_line (home_text demo_crawled))
           [u "네이버지도 검색"] (u "한강식당")
           [u "영업시간"; u "매일 11:00-21:00 라스트오더 20:30"]).
  - vm_compute. reflexivity.
  - repeat constructor.
  - vm_compute. reflexivity.
Defined.


(** ** More on the field merger *)

Lemma fill_value_blank cond v o :
  blank_value o = true ->
  fill_value cond v o = if cond then Some v else o.
Proof. intros H. unfold fill_value. rewrite H. now destruct cond. Qed.

Lemma fill_value_is_Some cond v o :
  is_Some o -> is_Some (fill_value cond v o).
Proof. intros H. unfold fill_value. now destruct (_ && _). Qed.

Lemma fill_value_from cond v o :
  is_Some (fill_value cond v o) -> is_Some o \/ cond = true.
Proof.
  unfold fill_value. destruct cond; simpl; [now right|now left].
Qed.

(** X20. A blank tab field (absent or empty) takes the crawled text of its
    tab, also when that text is empty; a blank place name or business
    hours field takes the guess when the guess is not empty and is left as
    it was (absent stays absent) when the guess is empty. *)
Theorem merge_fills_blank_fields
    (d : gmap pystr pystr) (c : CrawledPlaceData) :
  (is_blank d (u "home_tab_info") = true ->
   merge_blog_input_with_crawl d c !! u "home_tab_info" = Some (home_text c))
  /\ (is_blank d (u "menu_tab_info") = true ->
      merge_blog_input_with_crawl d c !! u "menu_tab_info"
      = Some (menu_text c))
  /\ (is_blank d (u "info_tab_info") = true ->
      merge_blog_input_with_crawl d c !! u "info_tab_info"
      = Some (info_text c))
  /\ (is_blank d (u "news_tab_info") = true ->
      merge_blog_input_with_crawl d c !! u "news_tab_info"
      = Some (news_text c))
  /\ (is_blank d (u "place_name") = true ->
      merge_blog_input_with_crawl d c !! u "place_name"
      = if truthy (_guess_place_name (home_text c))
        then Some (_guess_place_name (home_text c))
        else d !! u "place_name")
  /\ (is_blank d (u "business_hours") = true ->
      merge_blog_input_with_crawl d c !! u "business_hours"
      = if truthy (_guess_business_hours
                     (home_text c ++ [LF] ++ info_text c))
        then Some (_guess_business_hours
                     (home_text c ++ [LF] ++ info_text c))
        else d !! u "business_hours").
Proof.
  rewrite merge_home_tab_info, merge_menu_tab_info, merge_info_tab_info,
    merge_news_tab_info, merge_place_name, merge_business_hours.
  rewrite !is_blank_lookup.
  repeat apply conj; intros H; now rewrite fill_value_blank.
Qed.

(** X21. The merge removes no key and adds only keys it knows:
    [location_info], the four tab fields and [target_keyword] are always
    in the result, [location_info] with a value that is not empty; a key
    of the result that the input did not have is one of the nine fields
    the merger writes. *)
Theorem merge_keys (d : gmap pystr pystr) (c : CrawledPlaceData) :
  (forall k, is_Some (d !! k) ->
     is_Some (merge_blog_input_with_crawl d c !! k))
  /\ (forall k,
        In k [u "location_info"; u "home_tab_info"; u "menu_tab_info";
              u "info_tab_info"; u "news_tab_info"; u "target_keyword"] ->
        is_Some (merge_blog_input_with_crawl d c !! k))
  /\ (forall k, is_Some (merge_blog_input_with_crawl d c !! k) ->
        is_Some (d !! k) \/ In k recognized_fields)
  /\ is_blank (merge_blog_input_with_crawl d c) (u "location_info") = false.
Proof.
  split; [|split; [|split]].
  - intros k Hk.
    destruct (List.in_dec (fun a b : pystr => decide (a = b)) k
                recognized_fields) as [Hin|Hout].
    + unfold recognized_fields, backfill_fields in Hin. cbn [In] in Hin.
      destruct Hin as [<-|[<-|[<-|[<-|[<-|[<-|[<-|[<-|[<-|[]]]]]]]]]].
      * rewrite merge_location_info. eauto.
      * rewrite merge_place_name. now apply fill_value_is_Some.
      * rewrite merge_business_hours. now apply fill_value_is_Some.
      * rewrite merge_home_tab_info. now apply fill_value_is_Some.
      * rewrite merge_menu_tab_info. now apply fill_value_is_Some.
      * rewrite merge_info_tab_info. now apply fill_value_is_Some.
      * rewrite merge_news_tab_info. now apply fill_value_is_Some.
      * rewrite merge_parking_or_tips. now apply fill_value_is_Some.
      * rewrite merge_target_keyword. now apply fill_value_is_Some.
    + now rewrite merge_other.
  - intros k Hin. cbn [In] in Hin.
    assert (forall v o, is_Some (fill_value true v o)) as Hfill.
    { intros v o. unfold fill_value. simpl.
      destruct (blank_value o) eqn:Hb; [eauto|].
      destruct o; [eauto|discriminate]. }
    destruct Hin as [<-|[<-|[<-|[<-|[<-|[<-|[]]]]]]].
    + rewrite merge_location_info. eauto.
    + rewrite merge_home_tab_info. apply Hfill.
    + rewrite merge_menu_tab_info. apply Hfill.
    + rewrite merge_info_tab_info. apply Hfill.
    + rewrite merge_news_tab_info. apply Hfill.
    + rewrite merge_target_keyword. apply Hfill.
  - intros k Hk.
    destruct (List.in_dec (fun a b : pystr => decide (a = b)) k
                recognized_fields) as [Hin|Hout]; [now right|].
    left. now rewrite merge_other in Hk.
  - rewrite is_blank_lookup, merge_location_info. apply link_line_truthy.
Qed.

(** X22. A blank [target_keyword] becomes the place name of the result:
    the input's place name when that is not empty, else the guess (and the
    empty string when there is neither). *)
Theorem merge_target_keyword_default
    (d : gmap pystr pystr) (c : CrawledPlaceData) :
  is_blank d (u "target_keyword") = true ->
  merge_blog_input_with_crawl d c !! u "target_keyword"
  = Some (getitem (merge_blog_input_with_crawl d c) (u "place_name"))
  /\ (forall v, d !! u "place_name" = Some v -> truthy v = true ->
        merge_blog_input_with_crawl d c !! u "target_keyword" = Some v)
  /\ (is_blank d (u "place_name") = true ->
      truthy (_guess_place_name (home_text c)) = true ->
      merge_blog_input_with_crawl d c !! u "target_keyword"
      = Some (_guess_place_name (home_text c))).
Proof.
  intros Hb. rewrite is_blank_lookup in Hb.
  rewrite merge_target_keyword, fill_value_blank by assumption.
  unfold getitem. split; [reflexivity|]. rewrite merge_place_name. split.
  - intros v Hv Ht. now rewrite (fill_value_filled _ _ _ v).
  - intros Hp Hg. rewrite is_blank_lookup in Hp.
    now rewrite fill_value_blank, Hg.
Qed.

(** X23. When [parking_or_tips] is blank: without a tip line in the info
    text the key is left as it was; otherwise it becomes the first six (or
    fewer) tip lines joined by line feeds, each of them a stripped,
    non-empty line of the info text that holds one of the four keywords. *)
Theorem merge_parking_tips
    (d : gmap pystr pystr) (c : CrawledPlaceData) :
  is_blank d (u "parking_or_tips") = true ->
  (parking_tips c = [] ->
   merge_blog_input_with_crawl d c !! u "parking_or_tips"
   = d !! u "parking_or_tips")
  /\ (parking_tips c <> [] ->
      merge_blog_input_with_crawl d c !! u "parking_or_tips"
      = Some (join [LF] (take 6 (parking_tips c)))
      /\ (1 <= length (take 6 (parking_tips c)) <= 6)%nat
      /\ Forall (fun ln => is_tip_line ln = true /\ trimmed ln
                           /\ In ln (stripped_lines (info_text c)))
           (take 6 (parking_tips c))).
Proof.
  intros Hb. rewrite is_blank_lookup in Hb.
  rewrite merge_parking_or_tips, fill_value_blank by assumption. split.
  - intros ->. reflexivity.
  - intros Hne.
    assert (bool_decide (parking_tips c = []) = false) as ->
      by now apply bool_decide_eq_false.
    split; [reflexivity|]. split.
    + rewrite length_take. destruct (parking_tips c); [contradiction|].
      cbn [length]. lia.
    + apply Forall_take, Forall_forall. intros ln Hln.
      unfold parking_tips in Hln.
      apply list_elem_of_filter in Hln as [Htip Hin].
      split; [now apply Is_true_true in Htip|]. split.
      * pose proof (stripped_lines_trimmed (info_text c)) as Hall.
        rewrite Forall_forall in Hall. now apply Hall.
      * now apply list_elem_of_In.
Qed.

Ltac base_lookup :=
  unfold example_base;
  repeat (rewrite lookup_insert_ne by key_ne);
  first [apply lookup_insert_eq | apply lookup_empty].

(** X24. What [main] of [app.py] gets when it merges a crawl record into
    its base dictionary (every field of the merger empty): the guesses as
    place name and business hours, the link line alone as location, the
    four crawled texts, the joined tip lines, the guessed name as target
    keyword; [map_url] and [tone] as they were put in. *)
Theorem merge_into_example_base (map_url : pystr) (c : CrawledPlaceData) :
  let examples := merge_blog_input_with_crawl (example_base map_url) c in
  examples !! u "place_name" = Some (_guess_place_name (home_text c))
  /\ examples !! u "business_hours"
     = Some (_guess_business_hours (home_text c ++ [LF] ++ info_text c))
  /\ examples !! u "location_info"
     = Some (u "지도 링크: " ++ source_url c)
  /\ examples !! u "home_tab_info" = Some (home_text c)
  /\ examples !! u "menu_tab_info" = Some (menu_text c)
  /\ examples !! u "info_tab_info" = Some (info_text c)
  /\ examples !! u "news_tab_info" = Some (news_text c)
  /\ examples !! u "parking_or_tips"
     = Some (join [LF] (take 6 (parking_tips c)))
  /\ examples !! u "target_keyword"
     = Some (_guess_place_name (home_text c))
  /\ examples !! u "map_url" = Some map_url
  /\ examples !! u "tone" = Some (u "정보형").
Proof.
  cbv zeta.
  assert (forall k, In k recognized_fields ->
            example_base map_url !! k = Some []) as Hbase.
  { intros k Hin. unfold recognized_fields, backfill_fields in Hin.
    cbn [In] in Hin.
    destruct Hin as [<-|[<-|[<-|[<-|[<-|[<-|[<-|[<-|[<-|[]]]]]]]]]];
      base_lookup. }
  assert (forall k, In k recognized_fields ->
            In k recognized_fields) as Hin by auto.
  unfold recognized_fields, backfill_fields in Hbase. cbn [In] in Hbase.
  assert (forall cond (v : pystr),
            (cond = false -> v = []) ->
            fill_value cond v (Some []) = Some v) as Hfill.
  { intros cond v Hv. unfold fill_value. simpl. rewrite andb_true_r.
    destruct cond; [reflexivity|]. now rewrite Hv. }
  assert (forall v : pystr, truthy v = false -> v = []) as Hempty
    by (intros [|? ?]; [reflexivity|discriminate]).
  repeat apply conj.
  - rewrite merge_place_name, Hbase by auto 10. now apply Hfill, Hempty.
  - rewrite merge_business_hours, Hbase by auto 10. now apply Hfill, Hempty.
  - rewrite merge_location_info, Hbase by auto 10. reflexivity.
  - rewrite merge_home_tab_info, Hbase by auto 10. now apply Hfill.
  - rewrite merge_menu_tab_info, Hbase by auto 10. now apply Hfill.
  - rewrite merge_info_tab_info, Hbase by auto 10. now apply Hfill.
  - rewrite merge_news_tab_info, Hbase by auto 10. now apply Hfill.
  - rewrite merge_parking_or_tips, Hbase by auto 10. apply Hfill.
    intros Hnil. apply negb_false_iff, bool_decide_eq_true in Hnil.
    now rewrite Hnil.
  - rewrite merge_target_keyword, merge_place_name, !Hbase by auto 10.
    rewrite (Hfill (truthy _) (_guess_place_name (home_text c)))
      by apply Hempty.
    now apply Hfill.
  - rewrite merge_other; [base_lookup|].
    unfold recognized_fields, backfill_fields. cbn [In].
    intros H. repeat (destruct H as [H|H]; [vm_compute in H; discriminate H|]).
    exact H.
  - rewrite merge_other; [base_lookup|].
    unfold recognized_fields, backfill_fields. cbn [In].
    intros H. repeat (destruct H as [H|H]; [vm_compute in H; discriminate H|]).
    exact H.
Qed.


Lemma merge_fills_blank_fields_witness :
  merge_blog_input_with_crawl demo_input demo_crawled !! u "menu_tab_info"
  = Some (menu_text demo_crawled).
Proof.
  apply (proj1 (proj2 (merge_fills_blank_fields demo_input demo_crawled))).
  vm_compute. reflexivity.
Defined.

Lemma merge_keys_witness :
  is_Some (merge_blog_input_with_crawl demo_input demo_crawled !! u "tone").
Proof.
  apply (proj1 (merge_keys demo_input demo_crawled)).
  vm_compute. eauto.
Defined.

Lemma merge_target_keyword_default_witness :
  merge_blog_input_with_crawl demo_input demo_crawled !! u "target_keyword"
  = Some (u "우리식당").
Proof.
  refine (proj1 (proj2 (merge_target_keyword_default demo_input demo_crawled _))
            (u "우리식당") _ _).
  - vm_compute. reflexivity.
  - vm_compute. reflexivity.
  - reflexivity.
Defined.

Lemma merge_parking_tips_witness :
  merge_blog_input_with_crawl demo_input demo_crawled !! u "parking_or_tips"
  = Some (join [LF] (take 6 (parking_tips demo_crawled))).
Proof.
  refine (proj1 (proj2 (merge_parking_tips demo_input demo_crawled _) _)).
  - vm_compute. reflexivity.
  - intros H. vm_compute in H. discriminate H.
Defined.
